(** * Job processing engine of activcv: a shallow embedding

    Models of [app/models/job_processing.py], the job processor
    [app/services/job_processor.py] and the job endpoints
    [app/api/v1/endpoints/job_processing.py].

    The datastore is a record of two tables, [job_queue] and
    [job_processing_steps]; a supabase query [.eq(...)] becomes a filter,
    [.update(...)] a map over the matching rows and [.delete()] a filter of
    the others.  Timestamps are clock readings ([nat]); the clock value of
    a request is passed explicitly as [now].  The event log table
    [job_processing_logs] is write-only for every operation modelled here
    and is left out. *)

From Stdlib Require Import String Ascii List Bool Arith Lia QArith Sorted Permutation.
Import ListNotations.
Close Scope Q_scope.
Open Scope nat_scope.
Open Scope string_scope.

(** ** Data model ([app/models/job_processing.py]) *)

Inductive JobType :=
| CV_GENERATION
| COVER_LETTER_GENERATION
| JOB_ANALYSIS
| BULK_GENERATION.

(** [JobType(...).value] *)
Definition JobType_value (t : JobType) : string :=
  match t with
  | CV_GENERATION => "cv_generation"
  | COVER_LETTER_GENERATION => "cover_letter_generation"
  | JOB_ANALYSIS => "job_analysis"
  | BULK_GENERATION => "bulk_generation"
  end.

Module JobStatus.
Inductive t := PENDING | PROCESSING | COMPLETED | FAILED | CANCELLED.

(** [JobStatus(...).value] *)
Definition value (s : t) : string :=
  match s with
  | PENDING => "pending"
  | PROCESSING => "processing"
  | COMPLETED => "completed"
  | FAILED => "failed"
  | CANCELLED => "cancelled"
  end.

Definition eqb (a b : t) : bool := String.eqb (value a) (value b).
End JobStatus.

Module StepStatus.
Inductive t := PENDING | PROCESSING | COMPLETED | FAILED | SKIPPED.
End StepStatus.

(** A JSON object ([Dict[str, Any]]) with string values. *)
Definition Dict := list (string * string).

(** [dict.get(key)] *)
Fixpoint dict_get (d : Dict) (k : string) : option string :=
  match d with
  | [] => None
  | (k', v) :: d' => if String.eqb k k' then Some v else dict_get d' k
  end.

(** Python truthiness of an optional string: [None] and [""] are false. *)
Definition truthy (o : option string) : bool :=
  match o with
  | Some v => negb (String.eqb v "")
  | None => false
  end.

(** A row of the [job_queue] table ([class JobQueue]). *)
Record JobQueue := mkJob {
  id : string;
  user_id : string;
  job_type : JobType;
  priority : nat;
  input_data : Dict;
  max_retries : nat;
  scheduled_at : nat;
  status : JobStatus.t;
  progress_percentage : nat;
  current_step : option string;
  total_steps : nat;
  output_data : Dict;
  error_message : option string;
  retry_count : nat;
  started_at : option nat;
  completed_at : option nat;
  created_at : nat;
  updated_at : nat
}.

(** A row of the [job_processing_steps] table ([class JobProcessingStep]). *)
Module Step.
Record t := mk {
  job_queue_id : string;
  step_name : string;
  step_order : nat;
  status : StepStatus.t;
  progress_percentage : nat;
  error_message : option string;
  started_at : option nat;
  completed_at : option nat
}.
End Step.

Record DB := mkDB {
  job_queue : list JobQueue;
  job_processing_steps : list Step.t
}.

(** ** Table operations *)

(** [.update(f).eq(...)]: rewrite every matching row. *)
Definition update_where {A} (p : A -> bool) (f : A -> A) (rows : list A) : list A :=
  map (fun r => if p r then f r else r) rows.

Definition has_id (job_id : string) (j : JobQueue) : bool := String.eqb (id j) job_id.

(** [.select(...).eq("id", job_id).execute().data[0]] *)
Definition find_job (job_id : string) (rows : list JobQueue) : option JobQueue :=
  find (has_id job_id) rows.

Definition set_job_queue (f : list JobQueue -> list JobQueue) (db : DB) : DB :=
  mkDB (f (job_queue db)) (job_processing_steps db).

Definition set_steps (f : list Step.t -> list Step.t) (db : DB) : DB :=
  mkDB (job_queue db) (f (job_processing_steps db)).

(** ** JobProcessor ([app/services/job_processor.py]) *)

(** The update dictionary of [_fail_job], applied to a row whose
    [retry_count] was read as [rc]. *)
Definition fail_update (error_message0 : string) (rc now : nat) (j : JobQueue) : JobQueue :=
  mkJob (id j) (user_id j) (job_type j) (priority j) (input_data j)
    (max_retries j) (scheduled_at j) JobStatus.FAILED (progress_percentage j)
    (current_step j) (total_steps j) (output_data j) (Some error_message0)
    (rc + 1) (started_at j) (completed_at j) (created_at j) now.

(** [_fail_job]: reads [retry_count] of the row ([.data[0]] raises when
    there is none, [None] here) and writes status FAILED, the message and
    [retry_count + 1]. *)
Definition _fail_job (job_id error_message0 : string) (now : nat) (db : DB) : option DB :=
  match find_job job_id (job_queue db) with
  | None => None
  | Some r =>
      Some (set_job_queue
              (update_where (has_id job_id)
                 (fail_update error_message0 (retry_count r) now)) db)
  end.

(** The update dictionary of [_update_job_progress]. *)
Definition progress_update (progress : nat) (message : string) (now : nat) (j : JobQueue)
  : JobQueue :=
  mkJob (id j) (user_id j) (job_type j) (priority j) (input_data j)
    (max_retries j) (scheduled_at j) (status j) progress
    (if String.eqb message "" then current_step j else Some message)
    (total_steps j) (output_data j) (error_message j)
    (retry_count j) (started_at j) (completed_at j) (created_at j) now.

Definition _update_job_progress (job_id : string) (progress : nat) (message : string)
  (now : nat) (db : DB) : DB :=
  set_job_queue (update_where (has_id job_id) (progress_update progress message now)) db.

(** What a handler hands back to [process_job]: a result dictionary with
    [success] true and its [output_data], one with [success] false and its
    [error], or an exception. *)
Inductive HandlerResult :=
| Success (output_data0 : Dict)
| Failure (error : string)
| Raise (e : string).

Definition Handler := JobQueue -> DB -> HandlerResult * DB.

Section Processor.
(** The handler registry [self.job_handlers] and the two store
    procedures called through [db.rpc] ([start_job_processing],
    [complete_job_processing]).  [start_job_processing] yields [None]
    when the call raises or returns no data. *)
Variable job_handlers : JobType -> option Handler.
Variable start_job_processing : string -> nat -> DB -> option DB.
Variable complete_job_processing : string -> Dict -> nat -> DB -> option DB.

(** [process_job]: [None] when an exception escapes it (a second
    [_fail_job] raising inside the [except] branch).  In the message of a
    missing handler the f-string formats [job.job_type], a [str] enum, as
    its value. *)
Definition process_job (job : JobQueue) (now : nat) (db : DB) : option (bool * DB) :=
  let job_id := id job in
  let fail db0 msg :=
    match _fail_job job_id msg now db0 with
    | Some db1 => Some (false, db1)
    | None => (* except branch: [_fail_job] again *)
        match _fail_job job_id msg now db0 with
        | Some db1 => Some (false, db1)
        | None => None
        end
    end in
  match start_job_processing job_id now db with
  | None => Some (false, db)
  | Some db1 =>
      match job_handlers (job_type job) with
      | None => fail db1 ("No handler for job type: " ++ JobType_value (job_type job))
      | Some handler =>
          let db2 := _update_job_progress job_id 0 "Starting job processing" now db1 in
          match handler job db2 with
          | (Success out, db3) =>
              match complete_job_processing job_id out now db3 with
              | Some db4 => Some (true, db4)
              | None => fail db3 "complete_job_processing failed"
              end
          | (Failure e, db3) => fail db3 e
          | (Raise e, db3) => fail db3 e
          end
      end
  end.
End Processor.

(** ** Store procedures called through [db.rpc] (SQL, not in the Python code) *)

(** Modelled from the spec: the store procedure [start_job_processing]
    (claim, section 4.1: the job goes to PROCESSING and [started_at] is
    stamped).  A row already PROCESSING (claimed by [get_next_job]) is
    stamped again.  From any other status the move is an illegal
    transition (section 4.2): the procedure raises [InvalidStateError] and
    leaves the row unchanged.  A missing row gives no data.  Both make the
    caller answer [False]. *)
Definition start_update (now : nat) (j : JobQueue) : JobQueue :=
  mkJob (id j) (user_id j) (job_type j) (priority j) (input_data j)
    (max_retries j) (scheduled_at j) JobStatus.PROCESSING (progress_percentage j)
    (current_step j) (total_steps j) (output_data j) (error_message j)
    (retry_count j) (Some now) (completed_at j) (created_at j) now.

Definition start_job_processing_rpc (job_id : string) (now : nat) (db : DB) : option DB :=
  match find_job job_id (job_queue db) with
  | None => None
  | Some r =>
      match status r with
      | JobStatus.PENDING | JobStatus.PROCESSING =>
          Some (set_job_queue (update_where (has_id job_id) (start_update now)) db)
      | _ => None
      end
  end.

(** Modelled from the spec: the store procedure [complete_job_processing]
    (section 4.2 step 4: [output_data] set, [completed_at] stamped,
    status COMPLETED; the spec says nothing of the progress, which is left
    as it is).  Only a PROCESSING row may move to COMPLETED: otherwise
    (a job cancelled meanwhile, a missing row) the procedure raises and
    [_complete_job] with it. *)
Definition complete_update (out : Dict) (now : nat) (j : JobQueue) : JobQueue :=
  mkJob (id j) (user_id j) (job_type j) (priority j) (input_data j)
    (max_retries j) (scheduled_at j) JobStatus.COMPLETED (progress_percentage j)
    (current_step j) (total_steps j) out (error_message j)
    (retry_count j) (started_at j) (Some now) (created_at j) now.

Definition complete_job_processing_rpc (job_id : string) (out : Dict) (now : nat) (db : DB)
  : option DB :=
  match find_job job_id (job_queue db) with
  | Some r =>
      match status r with
      | JobStatus.PROCESSING =>
          Some (set_job_queue (update_where (has_id job_id) (complete_update out now)) db)
      | _ => None
      end
  | None => None
  end.

(** Modelled from the spec: the store procedure [calculate_job_progress]
    (section 4.2 step 2: [floor(100 * completed_steps / total_steps)]). *)
Definition calculate_job_progress (job_id : string) (db : DB) : DB :=
  let done_ := length (filter (fun s => String.eqb (Step.job_queue_id s) job_id &&
                                  match Step.status s with
                                  | StepStatus.COMPLETED => true | _ => false end)
                          (job_processing_steps db)) in
  set_job_queue
    (update_where (has_id job_id)
       (fun j => mkJob (id j) (user_id j) (job_type j) (priority j) (input_data j)
                   (max_retries j) (scheduled_at j) (status j)
                   (if Nat.eqb (total_steps j) 0 then progress_percentage j
                    else Nat.div (100 * done_) (total_steps j))
                   (current_step j) (total_steps j) (output_data j) (error_message j)
                   (retry_count j) (started_at j) (completed_at j) (created_at j)
                   (updated_at j))) db.

(** ** Step tracker *)

(** [STEP_DEFINITIONS]: step names in [order]. *)
Definition STEP_DEFINITIONS (t : JobType) : list string :=
  match t with
  | CV_GENERATION =>
      ["profile_analysis"; "job_analysis"; "content_generation";
       "template_application"; "pdf_generation"; "quality_check"; "delivery"]
  | COVER_LETTER_GENERATION =>
      ["company_research"; "profile_analysis"; "content_generation";
       "template_application"; "pdf_generation"; "quality_review"; "delivery"]
  | JOB_ANALYSIS =>
      ["job_parsing"; "requirement_extraction"; "skill_matching";
       "compatibility_scoring"; "recommendation_generation"]
  | BULK_GENERATION =>
      ["job_validation"; "queue_preparation"; "batch_processing";
       "result_compilation"; "notification"]
  end.

(** The rows inserted by [_create_job_steps] (status defaults to PENDING). *)
Definition job_steps (job_id : string) (t : JobType) : list Step.t :=
  let fix go (names : list string) (order : nat) :=
    match names with
    | [] => []
    | n :: ns => Step.mk job_id n order StepStatus.PENDING 0 None None None :: go ns (S order)
    end in
  go (STEP_DEFINITIONS t) 1.

(** The update dictionary of [_update_step_progress]. *)
Definition step_update (st : StepStatus.t) (progress now : nat) (s : Step.t) : Step.t :=
  Step.mk (Step.job_queue_id s) (Step.step_name s) (Step.step_order s) st progress
    (Step.error_message s)
    (match st with StepStatus.PROCESSING => Some now | _ => Step.started_at s end)
    (match st with
     | StepStatus.COMPLETED | StepStatus.FAILED | StepStatus.SKIPPED => Some now
     | _ => Step.completed_at s end).

Definition is_step (job_id step_name : string) (s : Step.t) : bool :=
  String.eqb (Step.step_name s) step_name && String.eqb (Step.job_queue_id s) job_id.

Definition _update_step_progress (job_id step_name : string) (st : StepStatus.t)
  (progress now : nat) (db : DB) : DB :=
  calculate_job_progress job_id
    (set_steps (update_where (is_step job_id step_name) (step_update st progress now)) db).

Definition find_step (job_id step_name : string) (db : DB) : option Step.t :=
  find (is_step job_id step_name) (job_processing_steps db).

(** ** Handlers *)

(** The outcome of the unit of work of a step, as the external
    collaborators (database reads, content generation, PDF rendering,
    e-mail) deliver it: done, or an error (a failed check that makes the
    handler return [success: False], or an exception it catches). *)
Inductive Work := Done | Error (e : string).

(** The outcomes, by step name; [env "file_size"] is the lookup of
    [pdf_result["file_size"]] after the last step of the cover letter
    handler. *)
Definition Env := string -> Work.

(** One tracked step of a handler: mark the step PROCESSING, report job
    progress, run the work; on an error return [success: False] at once,
    otherwise mark the step COMPLETED and continue with [k]. *)
Definition stage (job_id step_name : string) (pct : nat) (msg : string) (w : Work)
  (now : nat) (k : DB -> HandlerResult * DB) (db : DB) : HandlerResult * DB :=
  let db1 := _update_job_progress job_id pct msg now
               (_update_step_progress job_id step_name StepStatus.PROCESSING 0 now db) in
  match w with
  | Error e => (Failure e, db1)
  | Done => k (_update_step_progress job_id step_name StepStatus.COMPLETED 100 now db1)
  end.

(** [_process_cv_generation] *)
Definition _process_cv_generation (env : Env) (now : nat) (job : JobQueue) (db : DB)
  : HandlerResult * DB :=
  let jid := id job in
  let template := match dict_get (input_data job) "template" with
                  | Some t => t | None => "modern_one_page" end in
  stage jid "profile_analysis" 10 "Analyzing user profile" (env "profile_analysis") now
  (fun db =>
   (if truthy (dict_get (input_data job) "job_id")
    then stage jid "job_analysis" 25 "Analyzing job requirements" (env "job_analysis") now
    else fun k db => k (_update_step_progress jid "job_analysis" StepStatus.SKIPPED 100 now db))
   (stage jid "content_generation" 40 "Generating CV content" (env "content_generation") now
   (stage jid "template_application" 60 "Applying template styling"
      (env "template_application") now
   (stage jid "pdf_generation" 80 "Generating PDF document" (env "pdf_generation") now
   (stage jid "quality_check" 90 "Performing quality check" (env "quality_check") now
   (stage jid "delivery" 95 "Preparing for delivery" (env "delivery") now
   (fun db => (Success [("template_used", template)],
               _update_job_progress jid 100 "CV generation completed" now db)))))))
   db)
  db.

(** [_process_cover_letter_generation] *)
Definition _process_cover_letter_generation (env : Env) (now : nat) (job : JobQueue) (db : DB)
  : HandlerResult * DB :=
  let jid := id job in
  let template := match dict_get (input_data job) "template_key" with
                  | Some t => t | None => "professional_standard" end in
  stage jid "company_research" 10 "Researching company information"
    (env "company_research") now
  (stage jid "profile_analysis" 25 "Analyzing user profile" (env "profile_analysis") now
  (stage jid "content_generation" 50 "Writing cover letter content"
     (env "content_generation") now
  (stage jid "template_application" 70 "Applying template formatting"
     (env "template_application") now
  (stage jid "pdf_generation" 85 "Generating PDF document" (env "pdf_generation") now
  (stage jid "quality_review" 95 "Quality review and validation" (env "quality_review") now
  (stage jid "delivery" 98 "Preparing for delivery" (env "delivery") now
  (fun db =>
     let db1 := _update_job_progress jid 100 "Cover letter generation completed" now db in
     (* building [output_data] reads [pdf_result["file_size"]]: a
        [KeyError] there is caught and returned as [success: False] *)
     match env "file_size" with
     | Error e => (Failure e, db1)
     | Done => (Success [("template_used", template)], db1)
     end)))))))
  db.

Definition _process_job_analysis (job : JobQueue) (db : DB) : HandlerResult * DB :=
  (Success [("analysis", "Job analysis completed")], db).

Definition _process_bulk_generation (job : JobQueue) (db : DB) : HandlerResult * DB :=
  (Success [("processed", "Bulk generation completed")], db).

(** The registry built in [JobProcessor.__init__]. *)
Definition job_handlers_src (env : Env) (now : nat) (t : JobType) : option Handler :=
  match t with
  | CV_GENERATION => Some (_process_cv_generation env now)
  | COVER_LETTER_GENERATION => Some (_process_cover_letter_generation env now)
  | JOB_ANALYSIS => Some _process_job_analysis
  | BULK_GENERATION => Some _process_bulk_generation
  end.

(** ** Sample data *)

Definition sample_job (jid : string) (t : JobType) (prio max_r rc : nat) (st : JobStatus.t)
  (created : nat) : JobQueue :=
  mkJob jid "test-user-123" t prio [] max_r created st 0 None
    (length (STEP_DEFINITIONS t)) [] None rc None None created created.

Definition db_of (jobs : list JobQueue) : DB :=
  mkDB jobs (flat_map (fun j => job_steps (id j) (job_type j)) jobs).

(** Every unit of work succeeds except the one of step [bad]. *)
Definition env_failing_at (bad : string) : Env :=
  fun n => if String.eqb n bad then Error "User profile not found" else Done.

Definition run_src (env : Env) (job : JobQueue) (now : nat) (db : DB) : option (bool * DB) :=
  process_job (job_handlers_src env now) start_job_processing_rpc
    complete_job_processing_rpc job now db.

Definition row_after (r : option (bool * DB)) (jid : string) : option JobQueue :=
  match r with
  | Some (_, db) => find_job jid (job_queue db)
  | None => None
  end.

(** ** General lemmas on the table operations *)

Lemma find_update_where {A} (p : A -> bool) (f : A -> A) (rows : list A) :
  (forall r, p r = true -> p (f r) = true) ->
  find p (update_where p f rows) = option_map f (find p rows).
Proof.
  intros Hf; induction rows as [|r rows IH]; simpl; [reflexivity|].
  destruct (p r) eqn:E; simpl.
  - rewrite (Hf r E); reflexivity.
  - rewrite E; exact IH.
Qed.

Lemma has_id_fail_update jid e rc now r :
  has_id jid r = true -> has_id jid (fail_update e rc now r) = true.
Proof. unfold has_id; simpl; auto. Qed.

Lemma fail_job_row jid e now db r :
  find_job jid (job_queue db) = Some r ->
  exists db', _fail_job jid e now db = Some db' /\
    find_job jid (job_queue db') = Some (fail_update e (retry_count r) now r).
Proof.
  unfold _fail_job; intros H; rewrite H; eexists; split; [reflexivity|].
  unfold find_job, set_job_queue; simpl.
  rewrite find_update_where by apply has_id_fail_update.
  fold (find_job jid (job_queue db)); rewrite H; reflexivity.
Qed.

(** ** Retry accounting of [process_job] *)

(** The failure branch of [process_job]: once the handler has returned
    [success: False] or raised, the row as the handler left it goes
    through [_fail_job]. *)
Lemma process_job_handler_fails handlers start complete job now db db1 handler db3 e r :
  start (id job) now db = Some db1 ->
  handlers (job_type job) = Some handler ->
  (handler job (_update_job_progress (id job) 0 "Starting job processing" now db1)
     = (Failure e, db3) \/
   handler job (_update_job_progress (id job) 0 "Starting job processing" now db1)
     = (Raise e, db3)) ->
  find_job (id job) (job_queue db3) = Some r ->
  exists db4, process_job handlers start complete job now db = Some (false, db4) /\
    find_job (id job) (job_queue db4) = Some (fail_update e (retry_count r) now r).
Proof.
  intros Hs Hh Hr Hf.
  destruct (fail_job_row (id job) e now db3 r Hf) as (db4 & Hfail & Hrow).
  exists db4; split; [|exact Hrow].
  unfold process_job; rewrite Hs, Hh.
  destruct Hr as [Hr|Hr]; rewrite Hr; rewrite Hfail; reflexivity.
Qed.

(** C1 (amended).  After a handler failure (a result with [success]
    false or an exception) [process_job] answers [False] and the job row
    has [retry_count] one higher than when the handler returned, status
    FAILED and the error as [error_message]; [max_retries] is unchanged and
    is not consulted, so there is no requeue to PENDING. *)
Theorem C1_failure_increments_retry_and_fails :
  forall handlers start complete job now db db1 handler db3 e r,
  start (id job) now db = Some db1 ->
  handlers (job_type job) = Some handler ->
  (handler job (_update_job_progress (id job) 0 "Starting job processing" now db1)
     = (Failure e, db3) \/
   handler job (_update_job_progress (id job) 0 "Starting job processing" now db1)
     = (Raise e, db3)) ->
  find_job (id job) (job_queue db3) = Some r ->
  exists db4 r',
    process_job handlers start complete job now db = Some (false, db4) /\
    find_job (id job) (job_queue db4) = Some r' /\
    retry_count r' = retry_count r + 1 /\
    status r' = JobStatus.FAILED /\
    max_retries r' = max_retries r /\
    error_message r' = Some e.
Proof.
  intros handlers start complete job now db db1 handler db3 e r Hs Hh Hr Hf.
  destruct (process_job_handler_fails handlers start complete job now db db1 handler db3 e r
              Hs Hh Hr Hf) as (db4 & Hp & Hrow).
  exists db4, (fail_update e (retry_count r) now r); repeat split; assumption.
Qed.

Definition c1_job (max_r : nat) : JobQueue :=
  sample_job "job-1" CV_GENERATION 5 max_r 0 JobStatus.PENDING 0.

Lemma C1_failure_increments_retry_and_fails_witness :
  exists db4 r',
    process_job (job_handlers_src (env_failing_at "profile_analysis") 7)
      start_job_processing_rpc complete_job_processing_rpc (c1_job 3) 7 (db_of [c1_job 3])
      = Some (false, db4) /\
    find_job "job-1" (job_queue db4) = Some r' /\
    retry_count r' = 0 + 1 /\ status r' = JobStatus.FAILED /\
    max_retries r' = 3 /\ error_message r' = Some "User profile not found".
Proof.
  apply (C1_failure_increments_retry_and_fails
           (job_handlers_src (env_failing_at "profile_analysis") 7)
           start_job_processing_rpc complete_job_processing_rpc (c1_job 3) 7 (db_of [c1_job 3])
           (set_job_queue (update_where (has_id "job-1") (start_update 7)) (db_of [c1_job 3]))
           (_process_cv_generation (env_failing_at "profile_analysis") 7)
           (snd (_process_cv_generation (env_failing_at "profile_analysis") 7 (c1_job 3)
                   (_update_job_progress "job-1" 0 "Starting job processing" 7
                      (set_job_queue (update_where (has_id "job-1") (start_update 7))
                         (db_of [c1_job 3])))))
           "User profile not found"
           (progress_update 10 "Analyzing user profile" 7
              (start_update 7 (c1_job 3)))).
  - reflexivity.
  - reflexivity.
  - left; reflexivity.
  - vm_compute; reflexivity.
Defined.

(** C1 counterexample.  With [max_retries = 3] the first handler failure
    leaves [retry_count = 1 < 3] yet the status is FAILED, not PENDING;
    with [max_retries = 0] the first failure gives [retry_count = 1 > 0]. *)
Lemma C1_counterexample :
  (exists r, row_after (run_src (env_failing_at "profile_analysis") (c1_job 3) 7
                         (db_of [c1_job 3])) "job-1" = Some r /\
             retry_count r < max_retries r /\ status r <> JobStatus.PENDING) /\
  (exists r, row_after (run_src (env_failing_at "profile_analysis") (c1_job 0) 7
                         (db_of [c1_job 0])) "job-1" = Some r /\
             retry_count r > max_retries r).
Proof.
  split; eexists; (split; [vm_compute; reflexivity|]); simpl;
    [split; [lia | discriminate] | lia].
Qed.

(** ** Jobs without a registered handler *)

(** C6.  The registry built in [JobProcessor.__init__] has a handler for
    every [JobType], the closed set of types a claimed [JobQueue] can have
    (pydantic refuses any other value).  So the no-handler branch of
    [process_job], which would send the job through [_fail_job] (status
    FAILED, [retry_count] one higher), is never taken, and no claimed job
    is without a handler. *)
Theorem C6_every_job_type_has_handler :
  forall (env : Env) (now : nat) (t : JobType),
    exists h, job_handlers_src env now t = Some h.
Proof. intros env now t; destruct t; eexists; reflexivity. Qed.

(** ** Step rows after a failing step *)

Lemma find_update_where_other {A} (p q : A -> bool) (f : A -> A) (rows : list A) :
  (forall r, p r = true -> q r = false /\ q (f r) = false) ->
  find q (update_where p f rows) = find q rows.
Proof.
  intros Hpq; induction rows as [|r rows IH]; simpl; [reflexivity|].
  destruct (p r) eqn:E; simpl.
  - destruct (Hpq r E) as [H1 H2]; rewrite H1, H2; exact IH.
  - rewrite IH; reflexivity.
Qed.

Lemma find_step_job_progress jid n j pct msg now db :
  find_step jid n (_update_job_progress j pct msg now db) = find_step jid n db.
Proof. reflexivity. Qed.

Lemma find_step_same jid n st p now db :
  find_step jid n (_update_step_progress jid n st p now db)
  = option_map (step_update st p now) (find_step jid n db).
Proof.
  unfold find_step, _update_step_progress, calculate_job_progress, set_steps; simpl.
  apply find_update_where; intros r; unfold is_step; simpl; auto.
Qed.

Lemma find_step_other jid n m st p now db :
  n <> m ->
  find_step jid n (_update_step_progress jid m st p now db) = find_step jid n db.
Proof.
  intros Hnm.
  unfold find_step, _update_step_progress, calculate_job_progress, set_steps; simpl.
  apply find_update_where_other; intros r; unfold is_step; simpl.
  intros H; apply andb_prop in H as [H1 _]; apply String.eqb_eq in H1; subst m.
  destruct (String.eqb_spec (Step.step_name r) n) as [E|E]; [congruence|]; auto.
Qed.

Definition done_row (o : option Step.t) : bool :=
  match o with
  | Some s => match Step.status s with
              | StepStatus.COMPLETED | StepStatus.SKIPPED => true | _ => false end
  | None => false
  end.

(** The step rows of a job, read by name, and their changes. *)
Definition ViewIs (jid : string) (db : DB) (v : string -> option Step.t) : Prop :=
  forall n, find_step jid n db = v n.

Definition vupd (v : string -> option Step.t) (m : string) (st : StepStatus.t) (p t : nat)
  : string -> option Step.t :=
  fun n => if String.eqb n m then option_map (step_update st p t) (v n) else v n.

Definition fresh_view (jid : string) (t : JobType) : string -> option Step.t :=
  fun n => find (fun s => String.eqb (Step.step_name s) n) (job_steps jid t).

Lemma view_fresh jid t db :
  job_processing_steps db = job_steps jid t -> ViewIs jid db (fresh_view jid t).
Proof.
  intros Hs n; unfold find_step, fresh_view, is_step; rewrite Hs.
  destruct t; simpl; rewrite ?String.eqb_refl, ?andb_true_r; reflexivity.
Qed.

Lemma view_step_update jid m st p t db v :
  ViewIs jid db v -> ViewIs jid (_update_step_progress jid m st p t db) (vupd v m st p t).
Proof.
  intros Hv n; unfold vupd.
  destruct (String.eqb_spec n m) as [->|E].
  - rewrite find_step_same, Hv; reflexivity.
  - rewrite find_step_other by exact E; apply Hv.
Qed.

Lemma view_job_progress jid j pct msg t db v :
  ViewIs jid db v -> ViewIs jid (_update_job_progress j pct msg t db) v.
Proof. intros Hv n; rewrite find_step_job_progress; apply Hv. Qed.

Lemma stage_done jid n pct msg now k db v :
  ViewIs jid db v ->
  exists db', stage jid n pct msg Done now k db = k db' /\
    ViewIs jid db' (vupd (vupd v n StepStatus.PROCESSING 0 now) n StepStatus.COMPLETED 100 now).
Proof.
  intros Hv; eexists; split; [reflexivity|].
  apply view_step_update, view_job_progress, view_step_update, Hv.
Qed.

Lemma stage_error jid n pct msg e now k db v :
  ViewIs jid db v ->
  exists db', stage jid n pct msg (Error e) now k db = (Failure e, db') /\
    ViewIs jid db' (vupd v n StepStatus.PROCESSING 0 now).
Proof.
  intros Hv; eexists; split; [reflexivity|].
  apply view_job_progress, view_step_update, Hv.
Qed.

(** Walks a handler run [H : handler ... = (r, db')] stage by stage,
    keeping [Hv : ViewIs jid d v] for the store [d] the next stage
    receives. *)
Ltac walk_stages H :=
  repeat
    match type of H with
    | context [_update_step_progress ?j ?n ?st ?p ?t ?d] =>
        is_var d;
        match goal with
        | Hv : ViewIs _ d _ |- _ =>
            pose proof (view_step_update j n st p t d _ Hv);
            generalize dependent (_update_step_progress j n st p t d); intros;
            clear Hv
        end
    | stage ?j ?n ?p ?m Done ?t ?k ?d = _ =>
        match goal with
        | Hv : ViewIs _ d _ |- _ =>
            let d1 := fresh "db" in let Hst := fresh "Hst" in
            destruct (stage_done j n p m t k d _ Hv) as (d1 & Hst & ?);
            rewrite Hst in H; cbv beta zeta in H; clear Hst Hv
        end
    | stage ?j ?n ?p ?m (Error ?e) ?t ?k ?d = _ =>
        match goal with
        | Hv : ViewIs _ d _ |- _ =>
            let d1 := fresh "db" in let Hst := fresh "Hst" in
            destruct (stage_error j n p m e t k d _ Hv) as (d1 & Hst & ?);
            rewrite Hst in H; clear Hst Hv
        end
    | stage _ _ _ _ ?w _ _ _ = _ =>
        lazymatch w with Done => fail | Error _ => fail | _ => destruct w end
    | (if ?b then _ else _) _ _ = _ => destruct b; cbv beta iota in H
    | (match ?w with Done => _ | Error _ => _ end) = _ =>
        lazymatch w with
        | Done => cbv iota in H
        | Error _ => cbv iota in H
        | _ => destruct w
        end
    end.

Lemma done_row_true o :
  done_row o = true ->
  exists s, o = Some s /\ (Step.status s = StepStatus.COMPLETED \/ Step.status s = StepStatus.SKIPPED).
Proof.
  destruct o as [s|]; simpl; [|discriminate].
  destruct (Step.status s) eqn:E; try discriminate; eauto.
Qed.

(** The step rows of a job before a run: the listed ones by name, the
    others as the store [d] has them. *)
Fixpoint base_view (rows : list (string * Step.t)) (d : string -> option Step.t)
  : string -> option Step.t :=
  fun n => match rows with
           | [] => d n
           | (m, s) :: rs => if String.eqb n m then Some s else base_view rs d n
           end.

Lemma view_base jid db rows :
  Forall (fun p => find_step jid (fst p) db = Some (snd p)) rows ->
  ViewIs jid db (base_view rows (fun n => find_step jid n db)).
Proof.
  intros H n; induction H as [|[m s] rs Hm Hrs IH]; simpl; [reflexivity|].
  destruct (String.eqb_spec n m) as [->|E]; [exact Hm | exact IH].
Qed.

(** The step rows [f] after a failed run, read against the rows [v0]
    before it, in [step_order]: steps COMPLETED or SKIPPED, then one step
    moved to PROCESSING that keeps the [error_message] it had, then steps
    whose rows were not touched. *)
Fixpoint stopped_from (v0 f : string -> option Step.t) (names : list string) : Prop :=
  match names with
  | [] => False
  | n :: ns =>
      (exists s0 s, v0 n = Some s0 /\ f n = Some s /\
         Step.status s = StepStatus.PROCESSING /\
         Step.error_message s = Step.error_message s0 /\
         Forall (fun m => f m = v0 m) ns)
      \/ ((exists s, f n = Some s /\
             (Step.status s = StepStatus.COMPLETED \/ Step.status s = StepStatus.SKIPPED)) /\
          stopped_from v0 f ns)
  end.

(** Every step COMPLETED. *)
Definition all_completed (f : string -> option Step.t) (names : list string) : Prop :=
  Forall (fun m => exists s, f m = Some s /\ Step.status s = StepStatus.COMPLETED) names.

Lemma stopped_from_ext v0 w0 f g names :
  (forall n, v0 n = w0 n) -> (forall n, f n = g n) ->
  stopped_from v0 f names -> stopped_from w0 g names.
Proof.
  intros Hv Hf; induction names as [|n ns IH]; simpl; [tauto|].
  intros [(s0 & s & H0 & H1 & H2 & H3 & H4)|((s & H1 & H2) & H5)].
  - left; exists s0, s.
    split; [rewrite <- (Hv n); exact H0|].
    split; [rewrite <- (Hf n); exact H1|].
    split; [exact H2|]. split; [exact H3|].
    eapply Forall_impl; [|exact H4]; intros m Hm; rewrite <- (Hv m), <- (Hf m); exact Hm.
  - right; split; [exists s; rewrite <- (Hf n); auto | auto].
Qed.

Lemma all_completed_view jid d v names :
  ViewIs jid d v -> all_completed v names -> all_completed (fun n => find_step jid n d) names.
Proof.
  intros Hv H; unfold all_completed in *; eapply Forall_impl; [|exact H].
  intros m (s & Hs & Hst); exists s; rewrite Hv; auto.
Qed.

Lemma stopped_from_split v0 f names :
  stopped_from v0 f names ->
  exists pre n post s0 s, names = (pre ++ n :: post)%list /\
    v0 n = Some s0 /\ f n = Some s /\ Step.status s = StepStatus.PROCESSING /\
    Step.error_message s = Step.error_message s0 /\
    Forall (fun m => exists s', f m = Some s' /\
              (Step.status s' = StepStatus.COMPLETED \/ Step.status s' = StepStatus.SKIPPED)) pre /\
    Forall (fun m => f m = v0 m) post.
Proof.
  induction names as [|n ns IH]; simpl; [tauto|].
  intros [(s0 & s & H0 & H1 & H2 & H3 & H4)|(Hn & H5)].
  - exists [], n, ns, s0, s; repeat split; auto.
  - destruct (IH H5) as (pre & m & post & s0 & s & -> & H0 & H1 & H2 & H3 & Hpre & Hpost).
    exists (n :: pre), m, post, s0, s; repeat split; auto.
Qed.

(** Proves [stopped_from v0 f names] for concrete names and views. *)
Ltac solve_stopped :=
  cbn [stopped_from];
  first
    [ left; do 2 eexists;
      split; [reflexivity|]; split; [reflexivity|]; split; [reflexivity|];
      split; [reflexivity|]; solve [repeat constructor]
    | right; split;
      [ eexists; split; [reflexivity | first [left; reflexivity | right; reflexivity]]
      | solve_stopped ] ].

Ltac solve_completed :=
  unfold all_completed;
  repeat (apply Forall_cons; [eexists; split; reflexivity|]);
  apply Forall_nil.

(** Names the row [s] of step [n], which [Hrows] says exists. *)
Ltac step_row Hrows jid db n s E :=
  destruct (find_step jid n db) as [s|] eqn:E;
  [| exfalso; apply (Hrows n);
     [simpl; repeat (first [left; reflexivity | right]) | exact E]].

(** Ends a run walked by [walk_stages]: the rows it left, against the rows
    [bv] it started from. *)
Ltac close_run H Hbase bv :=
  injection H; intros; subst;
  try match goal with
      | Hv : ViewIs ?j ?d ?v |- context [_update_job_progress ?a ?b ?c ?t ?d] =>
          pose proof (view_job_progress j a b c t d v Hv); clear Hv
      end;
  match goal with
  | Hv : ViewIs _ _ ?v |- _ =>
      first
        [ apply (stopped_from_ext bv _ v _ _ (fun n => eq_sym (Hbase n)) (fun n => eq_sym (Hv n)));
          cbn [STEP_DEFINITIONS]; solve_stopped
        | left;
          apply (stopped_from_ext bv _ v _ _ (fun n => eq_sym (Hbase n)) (fun n => eq_sym (Hv n)));
          cbn [STEP_DEFINITIONS]; solve_stopped
        | right; apply (all_completed_view _ _ v _ Hv); cbn [STEP_DEFINITIONS]; solve_completed ]
  end.

Lemma cv_generation_failure_rows env now job db e db' :
  (forall m, In m (STEP_DEFINITIONS CV_GENERATION) -> find_step (id job) m db <> None) ->
  _process_cv_generation env now job db = (Failure e, db') ->
  stopped_from (fun n => find_step (id job) n db) (fun n => find_step (id job) n db')
    (STEP_DEFINITIONS CV_GENERATION).
Proof.
  intros Hrows H.
  step_row Hrows (id job) db "profile_analysis" s1 E1.
  step_row Hrows (id job) db "job_analysis" s2 E2.
  step_row Hrows (id job) db "content_generation" s3 E3.
  step_row Hrows (id job) db "template_application" s4 E4.
  step_row Hrows (id job) db "pdf_generation" s5 E5.
  step_row Hrows (id job) db "quality_check" s6 E6.
  step_row Hrows (id job) db "delivery" s7 E7.
  set (bv := base_view [("profile_analysis", s1); ("job_analysis", s2);
                        ("content_generation", s3); ("template_application", s4);
                        ("pdf_generation", s5); ("quality_check", s6); ("delivery", s7)]
               (fun n => find_step (id job) n db)).
  assert (Hv : ViewIs (id job) db bv) by (apply view_base; repeat constructor; assumption).
  assert (Hbase : forall n, find_step (id job) n db = bv n) by exact Hv.
  clear Hrows E1 E2 E3 E4 E5 E6 E7.
  unfold _process_cv_generation in H; cbv beta zeta in H.
  walk_stages H.
  all: try discriminate H.
  all: close_run H Hbase bv.
Qed.

Lemma cover_letter_failure_rows env now job db e db' :
  (forall m, In m (STEP_DEFINITIONS COVER_LETTER_GENERATION) -> find_step (id job) m db <> None) ->
  _process_cover_letter_generation env now job db = (Failure e, db') ->
  stopped_from (fun n => find_step (id job) n db) (fun n => find_step (id job) n db')
    (STEP_DEFINITIONS COVER_LETTER_GENERATION) \/
  all_completed (fun n => find_step (id job) n db') (STEP_DEFINITIONS COVER_LETTER_GENERATION).
Proof.
  intros Hrows H.
  step_row Hrows (id job) db "company_research" s1 E1.
  step_row Hrows (id job) db "profile_analysis" s2 E2.
  step_row Hrows (id job) db "content_generation" s3 E3.
  step_row Hrows (id job) db "template_application" s4 E4.
  step_row Hrows (id job) db "pdf_generation" s5 E5.
  step_row Hrows (id job) db "quality_review" s6 E6.
  step_row Hrows (id job) db "delivery" s7 E7.
  set (bv := base_view [("company_research", s1); ("profile_analysis", s2);
                        ("content_generation", s3); ("template_application", s4);
                        ("pdf_generation", s5); ("quality_review", s6); ("delivery", s7)]
               (fun n => find_step (id job) n db)).
  assert (Hv : ViewIs (id job) db bv) by (apply view_base; repeat constructor; assumption).
  assert (Hbase : forall n, find_step (id job) n db = bv n) by exact Hv.
  clear Hrows E1 E2 E3 E4 E5 E6 E7.
  unfold _process_cover_letter_generation in H; cbv beta zeta in H.
  walk_stages H.
  all: try discriminate H.
  all: close_run H Hbase bv.
Qed.

(** C7 (amended).  When a handler of the registry returns
    [success: False] on a job that has a row for each of its steps
    (whatever their state), either the steps ran in [step_order] and
    stopped at the failing one: every step before it is COMPLETED (or
    SKIPPED), the failing step is left in PROCESSING with the
    [error_message] it had before the run (it is never marked FAILED and
    the error is not written on it), and no step after it was touched.
    Or the job is a cover letter whose steps are all COMPLETED and which
    failed afterwards, building [output_data]. *)
Theorem C7_failing_step_left_processing :
  forall env now job db h e db',
  job_handlers_src env now (job_type job) = Some h ->
  (forall m, In m (STEP_DEFINITIONS (job_type job)) -> find_step (id job) m db <> None) ->
  h job db = (Failure e, db') ->
  (exists pre n post s0 s,
     STEP_DEFINITIONS (job_type job) = (pre ++ n :: post)%list /\
     find_step (id job) n db = Some s0 /\
     find_step (id job) n db' = Some s /\
     Step.status s = StepStatus.PROCESSING /\
     Step.error_message s = Step.error_message s0 /\
     Forall (fun m => exists s', find_step (id job) m db' = Some s' /\
               (Step.status s' = StepStatus.COMPLETED \/ Step.status s' = StepStatus.SKIPPED)) pre /\
     Forall (fun m => find_step (id job) m db' = find_step (id job) m db) post) \/
  (job_type job = COVER_LETTER_GENERATION /\
   Forall (fun m => exists s, find_step (id job) m db' = Some s /\
             Step.status s = StepStatus.COMPLETED) (STEP_DEFINITIONS (job_type job))).
Proof.
  intros env now job db h e db' Hh Hrows Hr.
  destruct (job_type job) eqn:Et; injection Hh as <-.
  - left; exact (stopped_from_split _ _ _ (cv_generation_failure_rows env now job db e db' Hrows Hr)).
  - destruct (cover_letter_failure_rows env now job db e db' Hrows Hr) as [Hs|Hs].
    + left; exact (stopped_from_split _ _ _ Hs).
    + right; split; [reflexivity | exact Hs].
  - discriminate Hr.
  - discriminate Hr.
Qed.

Definition c7_db : DB := db_of [c1_job 3].

Lemma C7_failing_step_left_processing_witness :
  (exists pre n post s0 s,
     STEP_DEFINITIONS CV_GENERATION = (pre ++ n :: post)%list /\
     find_step "job-1" n c7_db = Some s0 /\
     find_step "job-1" n (snd (_process_cv_generation (env_failing_at "content_generation") 7
                                 (c1_job 3) c7_db)) = Some s /\
     Step.status s = StepStatus.PROCESSING /\
     Step.error_message s = Step.error_message s0 /\
     Forall (fun m => exists s', find_step "job-1" m
               (snd (_process_cv_generation (env_failing_at "content_generation") 7
                       (c1_job 3) c7_db)) = Some s' /\
               (Step.status s' = StepStatus.COMPLETED \/ Step.status s' = StepStatus.SKIPPED)) pre /\
     Forall (fun m => find_step "job-1" m
               (snd (_process_cv_generation (env_failing_at "content_generation") 7
                       (c1_job 3) c7_db)) = find_step "job-1" m c7_db) post) \/
  (CV_GENERATION = COVER_LETTER_GENERATION /\
   Forall (fun m => exists s, find_step "job-1" m
             (snd (_process_cv_generation (env_failing_at "content_generation") 7
                     (c1_job 3) c7_db)) = Some s /\
             Step.status s = StepStatus.COMPLETED) (STEP_DEFINITIONS CV_GENERATION)).
Proof.
  apply (C7_failing_step_left_processing (env_failing_at "content_generation") 7 (c1_job 3)
           c7_db (_process_cv_generation (env_failing_at "content_generation") 7)
           "User profile not found"
           (snd (_process_cv_generation (env_failing_at "content_generation") 7
                   (c1_job 3) c7_db))).
  - reflexivity.
  - intros m Hm; simpl in Hm;
      repeat (destruct Hm as [<-|Hm]; [vm_compute; discriminate|]); destruct Hm.
  - vm_compute; reflexivity.
Defined.

(** C7 counterexample: when the profile lookup fails, the step
    [profile_analysis] is left in PROCESSING with no error, not FAILED with
    its error captured. *)
Lemma C7_counterexample :
  exists s,
    find_step "job-1" "profile_analysis"
      (snd (_process_cv_generation (env_failing_at "profile_analysis") 7 (c1_job 3) c7_db))
      = Some s /\
    Step.status s <> StepStatus.FAILED /\ Step.error_message s = None.
Proof. eexists; split; [vm_compute; reflexivity | split; [discriminate | reflexivity]]. Qed.

(** ** Job endpoints ([app/api/v1/endpoints/job_processing.py]) *)

Inductive Response :=
| Ok (j : JobQueue)
| NoContent
| HTTPError (code : nat) (detail : string).

(** [.select(...).eq("id", job_id).eq("user_id", current_user)]: the first
    row of the job owned by the caller. *)
Definition find_owned (job_id current_user : string) (rows : list JobQueue) : option JobQueue :=
  find (fun j => has_id job_id j && String.eqb (user_id j) current_user) rows.

Module JobQueueUpdate.
Record t := mk {
  status : option JobStatus.t;
  progress_percentage : option nat;
  current_step : option string;
  total_steps : option nat;
  output_data : option Dict;
  error_message : option string
}.

(** [update_data] is not empty. *)
Definition any_set (u : t) : bool :=
  match status u, progress_percentage u, current_step u, total_steps u,
        output_data u, error_message u with
  | None, None, None, None, None, None => false
  | _, _, _, _, _, _ => true
  end.
End JobQueueUpdate.

Definition or_keep {A} (o : option A) (a : A) : A :=
  match o with Some v => v | None => a end.

(** The update dictionary of [update_job]: every non-null field of the
    request, and [updated_at]. *)
Definition apply_update (u : JobQueueUpdate.t) (now : nat) (j : JobQueue) : JobQueue :=
  mkJob (id j) (user_id j) (job_type j) (priority j) (input_data j)
    (max_retries j) (scheduled_at j)
    (or_keep (JobQueueUpdate.status u) (status j))
    (or_keep (JobQueueUpdate.progress_percentage u) (progress_percentage j))
    (match JobQueueUpdate.current_step u with Some c => Some c | None => current_step j end)
    (or_keep (JobQueueUpdate.total_steps u) (total_steps j))
    (or_keep (JobQueueUpdate.output_data u) (output_data j))
    (match JobQueueUpdate.error_message u with Some m => Some m | None => error_message j end)
    (retry_count j) (started_at j) (completed_at j) (created_at j) now.

(** [PUT /jobs/{job_id}] *)
Definition update_job (job_id current_user : string) (job_update : JobQueueUpdate.t)
  (now : nat) (db : DB) : Response * DB :=
  match find_owned job_id current_user (job_queue db) with
  | None => (HTTPError 404 "Job not found", db)
  | Some _ =>
      let db' := if JobQueueUpdate.any_set job_update
                 then set_job_queue (update_where (has_id job_id) (apply_update job_update now)) db
                 else db in
      match find_job job_id (job_queue db') with
      | Some r => (Ok r, db')
      | None => (HTTPError 500 "Failed to update job", db')
      end
  end.

(** [DELETE /jobs/{job_id}]; the cascade of the foreign key removes the
    job's step rows. *)
Definition delete_job (job_id current_user : string) (db : DB) : Response * DB :=
  match find_owned job_id current_user (job_queue db) with
  | None => (HTTPError 404 "Job not found", db)
  | Some r =>
      if String.eqb (JobStatus.value (status r)) "processing"
      then (HTTPError 400 "Cannot delete job that is currently processing", db)
      else (NoContent,
            mkDB (filter (fun j => negb (has_id job_id j)) (job_queue db))
                 (filter (fun s => negb (String.eqb (Step.job_queue_id s) job_id))
                    (job_processing_steps db)))
  end.

Record JobRetryRequest := mkRetry {
  reset_retry_count : bool;
  new_priority : option nat;
  retry_scheduled_at : option nat
}.

Record JobCancellationRequest := mkCancel { reason : option string }.

(** The update dictionary of [retry_job]. *)
Definition retry_update (req : JobRetryRequest) (now : nat) (j : JobQueue) : JobQueue :=
  mkJob (id j) (user_id j) (job_type j)
    (match new_priority req with Some p => if Nat.eqb p 0 then priority j else p
                                | None => priority j end)
    (input_data j) (max_retries j)
    (or_keep (retry_scheduled_at req) (scheduled_at j))
    JobStatus.PENDING 0 None (total_steps j) (output_data j) None
    (if reset_retry_count req then 0 else retry_count j)
    None None (created_at j) now.

Definition step_reset (now : nat) (s : Step.t) : Step.t :=
  Step.mk (Step.job_queue_id s) (Step.step_name s) (Step.step_order s)
    StepStatus.PENDING 0 None None None.

(** [POST /jobs/{job_id}/retry] (the background task it schedules is the
    [process_job] above). *)
Definition retry_job (job_id current_user : string) (req : JobRetryRequest) (now : nat)
  (db : DB) : Response * DB :=
  match find_owned job_id current_user (job_queue db) with
  | None => (HTTPError 404 "Job not found", db)
  | Some r =>
      match status r with
      | JobStatus.FAILED | JobStatus.CANCELLED =>
          let db1 := set_job_queue (update_where (has_id job_id) (retry_update req now)) db in
          match find_job job_id (job_queue db1) with
          | Some r' =>
              (Ok r', set_steps (update_where
                                   (fun s => String.eqb (Step.job_queue_id s) job_id)
                                   (step_reset now)) db1)
          | None => (HTTPError 500 "Failed to retry job", db1)
          end
      | _ => (HTTPError 400 "Only failed or cancelled jobs can be retried", db)
      end
  end.

(** The update dictionary of [cancel_job]. *)
Definition cancel_update (req : JobCancellationRequest) (now : nat) (j : JobQueue) : JobQueue :=
  mkJob (id j) (user_id j) (job_type j) (priority j) (input_data j)
    (max_retries j) (scheduled_at j) JobStatus.CANCELLED (progress_percentage j)
    (current_step j) (total_steps j) (output_data j)
    (Some (if truthy (reason req) then or_keep (reason req) "" else "Job cancelled by user"))
    (retry_count j) (started_at j) (Some now) (created_at j) now.

(** [POST /jobs/{job_id}/cancel] *)
Definition cancel_job (job_id current_user : string) (req : JobCancellationRequest)
  (now : nat) (db : DB) : Response * DB :=
  match find_owned job_id current_user (job_queue db) with
  | None => (HTTPError 404 "Job not found", db)
  | Some r =>
      let s := JobStatus.value (status r) in
      if String.eqb s "pending" || String.eqb s "processing" then
        let db1 := set_job_queue (update_where (has_id job_id) (cancel_update req now)) db in
        match find_job job_id (job_queue db1) with
        | Some r' => (Ok r', db1)
        | None => (HTTPError 500 "Failed to cancel job", db1)
        end
      else (HTTPError 400 "Only pending or processing jobs can be cancelled", db)
  end.

(** ** Lemmas on the endpoints *)

(** [id] is the primary key of [job_queue]. *)
Definition ids_unique (db : DB) : Prop := NoDup (map id (job_queue db)).

Lemma owned_is_job rows jid u r :
  NoDup (map id rows) -> find_owned jid u rows = Some r -> find_job jid rows = Some r.
Proof.
  unfold find_owned, find_job.
  induction rows as [|a rows IH]; simpl; [discriminate|].
  intros Hnd H; inversion Hnd as [|? ? Hnin Hnd']; subst.
  destruct (has_id jid a) eqn:Ea; simpl in H.
  - destruct (String.eqb (user_id a) u); [exact H|].
    exfalso; apply find_some in H as [Hin Hp].
    apply andb_prop in Hp as [Hp _]; unfold has_id in Hp, Ea.
    apply String.eqb_eq in Hp, Ea; apply Hnin; rewrite Ea, <- Hp; apply in_map, Hin.
  - apply IH; assumption.
Qed.

Lemma find_job_update jid f rows :
  (forall r, id (f r) = id r) ->
  find_job jid (update_where (has_id jid) f rows) = option_map f (find_job jid rows).
Proof.
  intros Hid; unfold find_job; apply find_update_where.
  intros r; unfold has_id; rewrite Hid; auto.
Qed.

Lemma update_job_owned jid user u now db r :
  ids_unique db -> find_owned jid user (job_queue db) = Some r ->
  exists db', update_job jid user u now db
              = (Ok (if JobQueueUpdate.any_set u then apply_update u now r else r), db') /\
    find_job jid (job_queue db')
      = Some (if JobQueueUpdate.any_set u then apply_update u now r else r).
Proof.
  intros Hu Ho; pose proof (owned_is_job _ _ _ _ Hu Ho) as Hj.
  unfold update_job; rewrite Ho.
  destruct (JobQueueUpdate.any_set u).
  - exists (set_job_queue (update_where (has_id jid) (apply_update u now)) db); simpl.
    rewrite find_job_update, Hj by reflexivity; split; reflexivity.
  - exists db; rewrite Hj; split; reflexivity.
Qed.

Lemma retry_job_accepted jid user req now db r :
  ids_unique db -> find_owned jid user (job_queue db) = Some r ->
  status r = JobStatus.FAILED \/ status r = JobStatus.CANCELLED ->
  exists db', retry_job jid user req now db = (Ok (retry_update req now r), db').
Proof.
  intros Hu Ho Hs; pose proof (owned_is_job _ _ _ _ Hu Ho) as Hj.
  unfold retry_job; rewrite Ho.
  destruct Hs as [Hs|Hs]; rewrite Hs; simpl;
    rewrite find_job_update, Hj by reflexivity; eexists; reflexivity.
Qed.

Lemma cancel_job_accepted jid user req now db r :
  ids_unique db -> find_owned jid user (job_queue db) = Some r ->
  status r = JobStatus.PENDING \/ status r = JobStatus.PROCESSING ->
  exists db', cancel_job jid user req now db = (Ok (cancel_update req now r), db') /\
    find_job jid (job_queue db') = Some (cancel_update req now r).
Proof.
  intros Hu Ho Hs; pose proof (owned_is_job _ _ _ _ Hu Ho) as Hj.
  unfold cancel_job; rewrite Ho.
  exists (set_job_queue (update_where (has_id jid) (cancel_update req now)) db).
  destruct Hs as [Hs|Hs]; rewrite Hs; simpl;
    rewrite find_job_update, Hj by reflexivity; split; reflexivity.
Qed.

(** ** Sample endpoint inputs *)

Definition owner := "test-user-123".

Definition set_status_only (s : JobStatus.t) : JobQueueUpdate.t :=
  JobQueueUpdate.mk (Some s) None None None None None.

Definition e_job (st : JobStatus.t) : JobQueue :=
  sample_job "job-1" CV_GENERATION 5 3 0 st 0.

Lemma ids_unique_single j : ids_unique (db_of [j]).
Proof. unfold ids_unique; simpl; constructor; [simpl; tauto | constructor]. Qed.

(** C5 (amended).  [PUT /jobs/{job_id}] on a job owned by the caller
    answers with the row as it is afterwards.  Every non-null field of
    [JobQueueUpdate] is written onto the row, [status] included, with no
    check of the transition; when at least one field is non-null,
    [updated_at] is stamped as well.  Every other column, every other row
    and every step row are unchanged, and a body whose fields are all null
    writes nothing.  So the status is left unchanged only when the
    request's [status] is null (or repeats the current one). *)
Theorem C5_put_writes_nonnull_fields :
  forall jid user u now db r,
  ids_unique db ->
  find_owned jid user (job_queue db) = Some r ->
  exists r' db',
    update_job jid user u now db = (Ok r', db') /\
    find_job jid (job_queue db') = Some r' /\
    status r' = or_keep (JobQueueUpdate.status u) (status r) /\
    progress_percentage r' = or_keep (JobQueueUpdate.progress_percentage u) (progress_percentage r) /\
    current_step r' = match JobQueueUpdate.current_step u with
                      | Some c => Some c | None => current_step r end /\
    total_steps r' = or_keep (JobQueueUpdate.total_steps u) (total_steps r) /\
    output_data r' = or_keep (JobQueueUpdate.output_data u) (output_data r) /\
    error_message r' = match JobQueueUpdate.error_message u with
                       | Some m => Some m | None => error_message r end /\
    updated_at r' = (if JobQueueUpdate.any_set u then now else updated_at r) /\
    (id r', user_id r', job_type r', priority r', input_data r', max_retries r',
     scheduled_at r', retry_count r', started_at r', completed_at r', created_at r')
    = (id r, user_id r, job_type r, priority r, input_data r, max_retries r,
       scheduled_at r, retry_count r, started_at r, completed_at r, created_at r) /\
    (forall k, k <> jid -> find_job k (job_queue db') = find_job k (job_queue db)) /\
    job_processing_steps db' = job_processing_steps db /\
    (JobQueueUpdate.any_set u = false -> db' = db).
Proof.
  intros jid user u now db r Hu Ho.
  destruct (update_job_owned jid user u now db r Hu Ho) as (db' & Hr & Hf).
  assert (Hdb : db' = if JobQueueUpdate.any_set u
                      then set_job_queue (update_where (has_id jid) (apply_update u now)) db
                      else db).
  { unfold update_job in Hr; rewrite Ho in Hr.
    destruct (JobQueueUpdate.any_set u);
      destruct (find_job jid _); injection Hr as _ <-; reflexivity. }
  eexists; exists db'; split; [exact Hr|]; split; [exact Hf|].
  assert (Hframe : (forall k, k <> jid -> find_job k (job_queue db') = find_job k (job_queue db)) /\
                   job_processing_steps db' = job_processing_steps db /\
                   (JobQueueUpdate.any_set u = false -> db' = db)).
  { subst db'; destruct (JobQueueUpdate.any_set u); (split; [|split]);
      try (intros; reflexivity); try (intros; discriminate).
    intros k Hk; apply find_update_where_other; intros x Hx; unfold has_id in *; simpl.
    apply String.eqb_eq in Hx; rewrite Hx.
    destruct (String.eqb_spec jid k) as [E|E]; [congruence | auto]. }
  clear Hr Hf Hdb.
  unfold JobQueueUpdate.any_set in *.
  destruct u as [[s|] [p|] [c|] [t|] [o|] [m|]]; simpl in *;
    repeat split; try reflexivity; apply Hframe.
Qed.

Lemma C5_put_writes_nonnull_fields_witness :
  exists r' db',
    update_job "job-1" owner (set_status_only JobStatus.COMPLETED) 9
      (db_of [e_job JobStatus.PENDING]) = (Ok r', db') /\
    find_job "job-1" (job_queue db') = Some r' /\
    status r' = or_keep (Some JobStatus.COMPLETED) JobStatus.PENDING /\
    progress_percentage r' = or_keep None 0 /\
    current_step r' = None /\
    total_steps r' = or_keep None 7 /\
    output_data r' = or_keep None [] /\
    error_message r' = None /\
    updated_at r' = 9 /\
    (id r', user_id r', job_type r', priority r', input_data r', max_retries r',
     scheduled_at r', retry_count r', started_at r', completed_at r', created_at r')
    = ("job-1", owner, CV_GENERATION, 5, @nil (string * string), 3, 0, 0,
       @None nat, @None nat, 0) /\
    (forall k, k <> "job-1" -> find_job k (job_queue db') =
                                find_job k (job_queue (db_of [e_job JobStatus.PENDING]))) /\
    job_processing_steps db' = job_processing_steps (db_of [e_job JobStatus.PENDING]) /\
    (true = false -> db' = db_of [e_job JobStatus.PENDING]).
Proof.
  apply (C5_put_writes_nonnull_fields "job-1" owner (set_status_only JobStatus.COMPLETED) 9
           (db_of [e_job JobStatus.PENDING]) (e_job JobStatus.PENDING)).
  - apply ids_unique_single.
  - reflexivity.
Defined.

(** C5 counterexample: a PUT whose body sets [status] moves a PENDING job
    to COMPLETED. *)
Lemma C5_counterexample :
  exists r' db',
    update_job "job-1" owner (set_status_only JobStatus.COMPLETED) 9
      (db_of [e_job JobStatus.PENDING]) = (Ok r', db') /\
    status r' <> status (e_job JobStatus.PENDING).
Proof. do 2 eexists; split; [reflexivity | discriminate]. Qed.

(** C8 (amended).  The retry endpoint accepts exactly the owner's FAILED
    or CANCELLED jobs and moves them to PENDING (400 otherwise); the cancel
    endpoint accepts exactly PENDING or PROCESSING jobs and moves them to
    CANCELLED (400 otherwise).  Terminal states are not protected
    elsewhere: [PUT /jobs/{job_id}] sets any job, COMPLETED and CANCELLED
    ones included, to the status in its body. *)
Theorem C8_retry_cancel_guards_put_unguarded :
  (forall jid user req now db r,
     ids_unique db -> find_owned jid user (job_queue db) = Some r ->
     ((status r = JobStatus.FAILED \/ status r = JobStatus.CANCELLED) ->
        exists r' db', retry_job jid user req now db = (Ok r', db') /\
                       status r' = JobStatus.PENDING) /\
     (status r <> JobStatus.FAILED -> status r <> JobStatus.CANCELLED ->
        retry_job jid user req now db
        = (HTTPError 400 "Only failed or cancelled jobs can be retried", db))) /\
  (forall jid user req now db r,
     ids_unique db -> find_owned jid user (job_queue db) = Some r ->
     ((status r = JobStatus.PENDING \/ status r = JobStatus.PROCESSING) ->
        exists r' db', cancel_job jid user req now db = (Ok r', db') /\
                       status r' = JobStatus.CANCELLED) /\
     (status r <> JobStatus.PENDING -> status r <> JobStatus.PROCESSING ->
        cancel_job jid user req now db
        = (HTTPError 400 "Only pending or processing jobs can be cancelled", db))) /\
  (forall jid user s now db r,
     ids_unique db -> find_owned jid user (job_queue db) = Some r ->
     exists r' db', update_job jid user (set_status_only s) now db = (Ok r', db') /\
                    status r' = s).
Proof.
  split; [|split].
  - intros jid user req now db r Hu Ho; split.
    + intros Hs; destruct (retry_job_accepted jid user req now db r Hu Ho Hs) as [db' Hr].
      do 2 eexists; split; [exact Hr | reflexivity].
    + intros H1 H2; unfold retry_job; rewrite Ho.
      destruct (status r); congruence.
  - intros jid user req now db r Hu Ho; split.
    + intros Hs; destruct (cancel_job_accepted jid user req now db r Hu Ho Hs)
        as (db' & Hr & _).
      do 2 eexists; split; [exact Hr | reflexivity].
    + intros H1 H2; unfold cancel_job; rewrite Ho.
      destruct (status r); simpl; congruence.
  - intros jid user s now db r Hu Ho.
    destruct (update_job_owned jid user (set_status_only s) now db r Hu Ho) as (db' & Hr & _).
    do 2 eexists; split; [exact Hr | reflexivity].
Qed.

Definition retry_plain : JobRetryRequest := mkRetry false None None.
Definition cancel_plain : JobCancellationRequest := mkCancel None.

Lemma C8_retry_cancel_guards_put_unguarded_witness :
  (exists r' db', retry_job "job-1" owner retry_plain 9 (db_of [e_job JobStatus.FAILED])
                  = (Ok r', db') /\ status r' = JobStatus.PENDING) /\
  retry_job "job-1" owner retry_plain 9 (db_of [e_job JobStatus.COMPLETED])
    = (HTTPError 400 "Only failed or cancelled jobs can be retried",
       db_of [e_job JobStatus.COMPLETED]) /\
  (exists r' db', cancel_job "job-1" owner cancel_plain 9 (db_of [e_job JobStatus.PROCESSING])
                  = (Ok r', db') /\ status r' = JobStatus.CANCELLED) /\
  cancel_job "job-1" owner cancel_plain 9 (db_of [e_job JobStatus.COMPLETED])
    = (HTTPError 400 "Only pending or processing jobs can be cancelled",
       db_of [e_job JobStatus.COMPLETED]) /\
  (exists r' db', update_job "job-1" owner (set_status_only JobStatus.PENDING) 9
                    (db_of [e_job JobStatus.COMPLETED]) = (Ok r', db') /\
                  status r' = JobStatus.PENDING).
Proof.
  destruct C8_retry_cancel_guards_put_unguarded as (Hretry & Hcancel & Hput).
  split; [|split; [|split; [|split]]].
  - apply (Hretry "job-1" owner retry_plain 9 _ (e_job JobStatus.FAILED));
      [apply ids_unique_single | reflexivity | left; reflexivity].
  - apply (Hretry "job-1" owner retry_plain 9 _ (e_job JobStatus.COMPLETED));
      [apply ids_unique_single | reflexivity | discriminate | discriminate].
  - apply (Hcancel "job-1" owner cancel_plain 9 _ (e_job JobStatus.PROCESSING));
      [apply ids_unique_single | reflexivity | right; reflexivity].
  - apply (Hcancel "job-1" owner cancel_plain 9 _ (e_job JobStatus.COMPLETED));
      [apply ids_unique_single | reflexivity | discriminate | discriminate].
  - apply (Hput "job-1" owner JobStatus.PENDING 9 _ (e_job JobStatus.COMPLETED));
      [apply ids_unique_single | reflexivity].
Defined.

(** C8 counterexample: a COMPLETED job goes back to PENDING through
    [PUT /jobs/{job_id}], which is not a retry request. *)
Lemma C8_counterexample :
  exists r' db',
    update_job "job-1" owner (set_status_only JobStatus.PENDING) 9
      (db_of [e_job JobStatus.COMPLETED]) = (Ok r', db') /\
    status (e_job JobStatus.COMPLETED) = JobStatus.COMPLETED /\
    status r' = JobStatus.PENDING.
Proof. do 2 eexists; split; [reflexivity | split; reflexivity]. Qed.

Lemma find_job_filter_out jid rows :
  find_job jid (filter (fun j => negb (has_id jid j)) rows) = None.
Proof.
  unfold find_job; induction rows as [|a rows IH]; simpl; [reflexivity|].
  destruct (has_id jid a) eqn:E; simpl; [exact IH|rewrite E; exact IH].
Qed.

(** C9.  [DELETE /jobs/{job_id}] on a job of the caller: when the job is
    PROCESSING the request is refused with the conflict answer of the
    endpoint (HTTP 400, "Cannot delete job that is currently processing")
    and the store is returned unchanged; in any other status the job is
    deleted (204, no row with that id is left). *)
Theorem C9_delete_rejects_processing :
  forall jid user db r,
  find_owned jid user (job_queue db) = Some r ->
  (status r = JobStatus.PROCESSING ->
     delete_job jid user db
     = (HTTPError 400 "Cannot delete job that is currently processing", db)) /\
  (status r <> JobStatus.PROCESSING ->
     exists db', delete_job jid user db = (NoContent, db') /\
                 find_job jid (job_queue db') = None).
Proof.
  intros jid user db r Ho; unfold delete_job; rewrite Ho; split.
  - intros Hs; rewrite Hs; reflexivity.
  - intros Hs; destruct (status r) eqn:E; try congruence; simpl;
      eexists; split; try reflexivity; apply find_job_filter_out.
Qed.

Lemma C9_delete_rejects_processing_witness :
  delete_job "job-1" owner (db_of [e_job JobStatus.PROCESSING])
    = (HTTPError 400 "Cannot delete job that is currently processing",
       db_of [e_job JobStatus.PROCESSING]) /\
  (exists db', delete_job "job-1" owner (db_of [e_job JobStatus.FAILED]) = (NoContent, db') /\
               find_job "job-1" (job_queue db') = None).
Proof.
  split.
  - apply (C9_delete_rejects_processing "job-1" owner _ (e_job JobStatus.PROCESSING));
      reflexivity.
  - apply (C9_delete_rejects_processing "job-1" owner _ (e_job JobStatus.FAILED));
      [reflexivity | discriminate].
Defined.

(** C10.  A cancel request accepted on a PENDING or PROCESSING job writes
    status CANCELLED, stamps [completed_at] with the request time and sets
    [error_message] to the reason given, or to "Job cancelled by user" when
    the reason is null or empty; the stored row therefore always has a
    non-null [error_message] and [completed_at]. *)
Theorem C10_cancel_stamps_row :
  forall jid user req now db r,
  ids_unique db ->
  find_owned jid user (job_queue db) = Some r ->
  (status r = JobStatus.PENDING \/ status r = JobStatus.PROCESSING) ->
  exists r' db',
    cancel_job jid user req now db = (Ok r', db') /\
    find_job jid (job_queue db') = Some r' /\
    status r' = JobStatus.CANCELLED /\
    completed_at r' = Some now /\
    error_message r' = Some (match reason req with
                             | Some m => if String.eqb m "" then "Job cancelled by user" else m
                             | None => "Job cancelled by user"
                             end) /\
    error_message r' <> None /\ completed_at r' <> None.
Proof.
  intros jid user req now db r Hu Ho Hs.
  destruct (cancel_job_accepted jid user req now db r Hu Ho Hs) as (db' & Hr & Hf).
  exists (cancel_update req now r), db'; repeat split; try assumption; try discriminate.
  simpl; destruct (reason req) as [m|]; simpl; [|reflexivity].
  destruct (String.eqb m ""); reflexivity.
Qed.

Lemma C10_cancel_stamps_row_witness :
  exists r' db',
    cancel_job "job-1" owner cancel_plain 9 (db_of [e_job JobStatus.PENDING]) = (Ok r', db') /\
    find_job "job-1" (job_queue db') = Some r' /\
    status r' = JobStatus.CANCELLED /\ completed_at r' = Some 9 /\
    error_message r' = Some "Job cancelled by user" /\
    error_message r' <> None /\ completed_at r' <> None.
Proof.
  apply (C10_cancel_stamps_row "job-1" owner cancel_plain 9 _ (e_job JobStatus.PENDING));
    [apply ids_unique_single | reflexivity | left; reflexivity].
Defined.

(** ** Dashboard ([JobProcessor.get_dashboard_stats]) *)

(** [class JobDashboardStats]; [success_rate] is a rational. *)
Record JobDashboardStats := mkStats {
  total_jobs : nat;
  pending_jobs : nat;
  processing_jobs : nat;
  completed_jobs : nat;
  failed_jobs : nat;
  avg_processing_time_ms : option Q;
  avg_queue_wait_time_ms : option Q;
  success_rate : Q;
  jobs_by_type : list (string * nat);
  recent_jobs : list JobQueue
}.

Definition default_stats : JobDashboardStats :=
  mkStats 0 0 0 0 0 None None 0%Q [] [].

(** [d[k] = d.get(k, 0) + 1] on an insertion-ordered dict. *)
Fixpoint dict_inc (d : list (string * nat)) (k : string) : list (string * nat) :=
  match d with
  | [] => [(k, 1)]
  | (k', n) :: rest => if String.eqb k' k then (k', S n) :: rest else (k', n) :: dict_inc rest k
  end.

(** One iteration of the loop over [detailed_result.data]. *)
Definition tally_row (j : JobQueue) (st : JobDashboardStats) : JobDashboardStats :=
  let s := JobStatus.value (status j) in
  let '(p, pr, c, f) :=
    if String.eqb s "pending" then (S (pending_jobs st), processing_jobs st, completed_jobs st, failed_jobs st)
    else if String.eqb s "processing" then (pending_jobs st, S (processing_jobs st), completed_jobs st, failed_jobs st)
    else if String.eqb s "completed" then (pending_jobs st, processing_jobs st, S (completed_jobs st), failed_jobs st)
    else if String.eqb s "failed" then (pending_jobs st, processing_jobs st, completed_jobs st, S (failed_jobs st))
    else (pending_jobs st, processing_jobs st, completed_jobs st, failed_jobs st) in
  mkStats (total_jobs st) p pr c f (avg_processing_time_ms st) (avg_queue_wait_time_ms st)
    (success_rate st) (dict_inc (jobs_by_type st) (JobType_value (job_type j))) (recent_jobs st).

Fixpoint tally (rows : list JobQueue) (st : JobDashboardStats) : JobDashboardStats :=
  match rows with
  | [] => st
  | j :: rest => tally rest (tally_row j st)
  end.

(** Modelled from the spec: the view [job_queue_dashboard] (SQL, not in
    the code) has one row per row of [job_queue], with its [status] and
    [job_type] (section 4.4: counts per status and per type). *)
Definition job_queue_dashboard (db : DB) : list JobQueue := job_queue db.

(** [.order("created_at", desc=True)]: newest first.  The store leaves
    the order of rows with equal [created_at] open; here they keep their
    table order, and what is proved below about this ordering (rows newest
    first, which rows a page holds when it covers them all, page sizes)
    does not depend on the order among ties. *)
Fixpoint insert_created_desc (j : JobQueue) (l : list JobQueue) : list JobQueue :=
  match l with
  | [] => [j]
  | k :: ks => if Nat.ltb (created_at k) (created_at j) then j :: k :: ks else k :: insert_created_desc j ks
  end.

Definition order_created_desc (l : list JobQueue) : list JobQueue :=
  fold_right insert_created_desc [] l.

Definition owned_by (user_id0 : string) (j : JobQueue) : bool := String.eqb (user_id j) user_id0.

Definition get_dashboard_stats (user_id0 : string) (db : DB) : JobDashboardStats :=
  let mine := filter (owned_by user_id0) (job_queue db) in
  let st0 := mkStats (length mine) 0 0 0 0 None None 0%Q [] [] in
  let st1 := tally (filter (owned_by user_id0) (job_queue_dashboard db)) st0 in
  let rate := if Nat.ltb 0 (total_jobs st1)
              then (inject_Z (Z.of_nat (completed_jobs st1)) / inject_Z (Z.of_nat (total_jobs st1)))%Q
              else success_rate st1 in
  mkStats (total_jobs st1) (pending_jobs st1) (processing_jobs st1) (completed_jobs st1)
    (failed_jobs st1) (avg_processing_time_ms st1) (avg_queue_wait_time_ms st1) rate
    (jobs_by_type st1) (firstn 5 (order_created_desc mine)).

(** Number of the user's jobs in status [st]. *)
Definition count_status (user_id0 : string) (st : JobStatus.t) (db : DB) : nat :=
  length (filter (fun j => owned_by user_id0 j && JobStatus.eqb (status j) st) (job_queue db)).

(** ** Claiming jobs *)

(** Modelled from the spec: the store procedure [get_next_job_from_queue]
    ([claim_next], section 4.1), which runs atomically.  A job is eligible
    when PENDING with [scheduled_at <= now]; [claim_before a b] says that [a]
    comes no later than [b] in the order priority descending, then
    [scheduled_at] ascending, then [created_at] ascending.  The chosen job
    goes to PROCESSING with [started_at] stamped and is returned. *)
Definition eligible (now : nat) (j : JobQueue) : bool :=
  JobStatus.eqb (status j) JobStatus.PENDING && Nat.leb (scheduled_at j) now.

Definition claim_before (a b : JobQueue) : bool :=
  Nat.ltb (priority b) (priority a) ||
  (Nat.eqb (priority a) (priority b) &&
   (Nat.ltb (scheduled_at a) (scheduled_at b) ||
    (Nat.eqb (scheduled_at a) (scheduled_at b) && Nat.leb (created_at a) (created_at b)))).

Definition better (best : option JobQueue) (r : JobQueue) : option JobQueue :=
  match best with
  | Some b => if claim_before b r then Some b else Some r
  | None => Some r
  end.

Definition select_next (now : nat) (rows : list JobQueue) : option JobQueue :=
  fold_left better (filter (eligible now) rows) None.

Definition get_next_job_from_queue (now : nat) (db : DB) : option JobQueue * DB :=
  match select_next now (job_queue db) with
  | None => (None, db)
  | Some j => (Some (start_update now j),
               set_job_queue (update_where (has_id (id j)) (start_update now)) db)
  end.

(** [n] callers of the claim; the store serialises them. *)
Fixpoint claim_all (n now : nat) (db : DB) : list (option JobQueue) :=
  match n with
  | 0 => []
  | S m => let (r, db1) := get_next_job_from_queue now db in r :: claim_all m now db1
  end.

(** ** Job creation ([JobProcessor.create_job], [create_bulk_jobs]) *)

Module JobQueueCreate.
Record t := mk {
  user_id : string;
  job_type : JobType;
  priority : nat;
  input_data : Dict;
  max_retries : nat;
  scheduled_at : option nat
}.
End JobQueueCreate.

Module BulkJobRequest.
Record t := mk {
  job_type : JobType;
  jobs : list Dict;
  priority : nat;
  max_retries : nat
}.
End BulkJobRequest.

(** [process_job] with the handlers of the code; the writes made before an
    exception escapes it are not kept. *)
Definition run_process (env : Env) (now : nat) (j : JobQueue) (db : DB) : DB :=
  match run_src env j now db with
  | Some (_, db') => db'
  | None => db
  end.

(** A value of the payload [job_data] that [create_job] hands to the
    insert.  The client encodes the payload with [json.dumps], which takes
    strings, numbers, dictionaries and [None] and raises [TypeError] on a
    [datetime]. *)
Inductive PyVal :=
| PyStr (s : string)
| PyInt (n : nat)
| PyDict (d : Dict)
| PyNone
| PyDatetime (t : nat).

Definition json_serializable (v : PyVal) : bool :=
  match v with PyDatetime _ => false | _ => true end.

Definition json_dumps_error : string := "Object of type datetime is not JSON serializable".

(** [job_data] of [create_job]: the id, the fields of [job_create.dict()],
    and [scheduled_at] set to [job_create.scheduled_at or
    datetime.utcnow()], a [datetime] either way. *)
Definition job_data (job_id : string) (job_create : JobQueueCreate.t) (now : nat)
  : list (string * PyVal) :=
  [("id", PyStr job_id);
   ("user_id", PyStr (JobQueueCreate.user_id job_create));
   ("job_type", PyStr (JobType_value (JobQueueCreate.job_type job_create)));
   ("priority", PyInt (JobQueueCreate.priority job_create));
   ("input_data", PyDict (JobQueueCreate.input_data job_create));
   ("max_retries", PyInt (JobQueueCreate.max_retries job_create));
   ("scheduled_at", PyDatetime (or_keep (JobQueueCreate.scheduled_at job_create) now))].

(** The outcome of a call that may raise: its value, or the message of
    the exception. *)
Inductive Outcome (A : Type) :=
| Returns (a : A)
| Raises (e : string).
Arguments Returns {A} a.
Arguments Raises {A} e.

(** [create_job] with the generated [job_id].  The insert raises when the
    payload cannot be encoded, before anything is written, and
    [create_job] re-raises.  Otherwise the inserted row (the columns the
    insert leaves out take the defaults of [class JobQueue], status
    PENDING, [created_at] the insertion time) is returned, and
    [_create_job_steps] inserts the step rows and sets [total_steps]. *)
Definition create_job (job_id : string) (job_create : JobQueueCreate.t) (now : nat) (db : DB)
  : Outcome (JobQueue * DB) :=
  if forallb (fun kv => json_serializable (snd kv)) (job_data job_id job_create now)
  then
    let row := mkJob job_id (JobQueueCreate.user_id job_create)
                 (JobQueueCreate.job_type job_create)
                 (JobQueueCreate.priority job_create) (JobQueueCreate.input_data job_create)
                 (JobQueueCreate.max_retries job_create)
                 (or_keep (JobQueueCreate.scheduled_at job_create) now)
                 JobStatus.PENDING 0 None 1 [] None 0 None None now now in
    let db1 := set_job_queue (fun rows => (rows ++ [row])%list) db in
    let step_data := job_steps job_id (JobQueueCreate.job_type job_create) in
    Returns
      (row,
       match step_data with
       | [] => db1
       | _ =>
           set_job_queue
             (update_where (has_id job_id)
                (fun j => mkJob (id j) (user_id j) (job_type j) (priority j) (input_data j)
                            (max_retries j) (scheduled_at j) (status j) (progress_percentage j)
                            (current_step j) (length step_data) (output_data j) (error_message j)
                            (retry_count j) (started_at j) (completed_at j) (created_at j)
                            (updated_at j)))
             (set_steps (fun steps => (steps ++ step_data)%list) db1)
       end)
  else Raises json_dumps_error.

(** [str(n)] for a natural number. *)
Fixpoint digits (fuel n : nat) (acc : string) : string :=
  match fuel with
  | 0 => acc
  | S f =>
      let acc' := String (ascii_of_nat (48 + n mod 10)) acc in
      if Nat.ltb n 10 then acc' else digits f (n / 10) acc'
  end.

Definition str_of_nat (n : nat) : string := digits (S n) n "".

Module BulkJobResponse.
Record t := mk {
  success : bool;
  total_jobs : nat;
  created_jobs : list string;
  failed_jobs : list (string * string);  (* ["index"], ["error"] *)
  batch_id : string
}.
End BulkJobResponse.

(** The loop of [create_bulk_jobs]: [uuid4 i] is the id drawn for the
    [i]-th job.  A created job is kept, in request order, and becomes the
    argument of a background task; an entry whose creation raises is
    recorded with its index and the message. *)
Fixpoint create_bulk_loop (current_user : string) (req : BulkJobRequest.t)
  (uuid4 : nat -> string) (i : nat) (jobs : list Dict) (now : nat) (db : DB)
  : list JobQueue * list (string * string) * DB :=
  match jobs with
  | [] => ([], [], db)
  | job_data0 :: rest =>
      match create_job (uuid4 i)
              (JobQueueCreate.mk current_user (BulkJobRequest.job_type req)
                 (BulkJobRequest.priority req) job_data0 (BulkJobRequest.max_retries req) None)
              now db with
      | Returns (job, db1) =>
          let '(created, failed, db2) := create_bulk_loop current_user req uuid4 (S i) rest now db1 in
          (job :: created, failed, db2)
      | Raises e =>
          let '(created, failed, db2) := create_bulk_loop current_user req uuid4 (S i) rest now db in
          (created, (str_of_nat i, e) :: failed, db2)
      end
  end.

(** [POST /jobs/bulk]: the response, the jobs handed to background tasks
    and the store. *)
Definition create_bulk_jobs (current_user : string) (req : BulkJobRequest.t)
  (uuid4 : nat -> string) (now : nat) (db : DB) : BulkJobResponse.t * list JobQueue * DB :=
  let '(created, failed, db1) :=
    create_bulk_loop current_user req uuid4 0 (BulkJobRequest.jobs req) now db in
  (BulkJobResponse.mk (Nat.eqb (length failed) 0) (length (BulkJobRequest.jobs req))
     (map id created) failed
     ("batch_" ++ str_of_nat (length created) ++ "_" ++ substring 0 8 current_user),
   created, db1).

(** [POST /jobs]: the caller becomes the owner; the created job is handed
    to a background task.  An exception of [create_job] gives a 500. *)
Definition create_job_endpoint (job_id current_user : string) (job_create : JobQueueCreate.t)
  (now : nat) (db : DB) : Response * list JobQueue * DB :=
  let job_create' := JobQueueCreate.mk current_user (JobQueueCreate.job_type job_create)
                       (JobQueueCreate.priority job_create) (JobQueueCreate.input_data job_create)
                       (JobQueueCreate.max_retries job_create)
                       (JobQueueCreate.scheduled_at job_create) in
  match create_job job_id job_create' now db with
  | Returns (job, db1) => (Ok job, [job], db1)
  | Raises e => (HTTPError 500 ("Failed to create job: " ++ e), [], db)
  end.


(** ** Workers, background tasks and requests

    A state of the whole system: the store, what each worker running
    [job_queue_worker] holds (the job [get_next_job] gave it, while its
    [process_job] runs) and the background tasks [_process_job_background]
    added by requests and not yet run.  FastAPI runs the tasks of a
    request after its response, and the tasks of different requests
    interleave, so any pending task may be the next to run. *)
Record Sys := mkSys {
  sdb : DB;
  workers : list (option JobQueue);
  tasks : list JobQueue
}.

Inductive Event :=
| Poll (w : nat)                    (* worker [w] calls [get_next_job] *)
| Finish (w : nat) (env : Env)      (* the [process_job] of worker [w] returns *)
| RunTask (n : nat) (env : Env)     (* the pending background task [n] runs *)
| Create (job_id current_user : string) (c : JobQueueCreate.t)
| BulkCreate (current_user : string) (req : BulkJobRequest.t) (uuid4 : nat -> string)
| Cancel (job_id current_user : string) (req : JobCancellationRequest)
| Retry (job_id current_user : string) (req : JobRetryRequest).

Fixpoint set_nth {A} (n : nat) (x : A) (l : list A) : list A :=
  match l, n with
  | [], _ => []
  | _ :: t, 0 => x :: t
  | h :: t, S m => h :: set_nth m x t
  end.

Definition sys_step (now : nat) (e : Event) (s : Sys) : Sys :=
  match e with
  | Poll w =>
      match nth w (workers s) None with
      | Some _ => s
      | None =>
          match get_next_job_from_queue now (sdb s) with
          | (Some j, db1) => mkSys db1 (set_nth w (Some j) (workers s)) (tasks s)
          | (None, db1) => mkSys db1 (workers s) (tasks s)
          end
      end
  | Finish w env =>
      match nth w (workers s) None with
      | Some j => mkSys (run_process env now j (sdb s)) (set_nth w None (workers s)) (tasks s)
      | None => s
      end
  | RunTask n env =>
      match nth_error (tasks s) n with
      | Some j => mkSys (run_process env now j (sdb s)) (workers s)
                    (firstn n (tasks s) ++ skipn (S n) (tasks s))%list
      | None => s
      end
  | Create jid user c =>
      let '(_, created, db1) := create_job_endpoint jid user c now (sdb s) in
      mkSys db1 (workers s) (tasks s ++ created)%list
  | BulkCreate user req uuid4 =>
      let '(_, created, db1) := create_bulk_jobs user req uuid4 now (sdb s) in
      mkSys db1 (workers s) (tasks s ++ created)%list
  | Cancel jid user req => mkSys (snd (cancel_job jid user req now (sdb s))) (workers s) (tasks s)
  | Retry jid user req =>
      match retry_job jid user req now (sdb s) with
      | (Ok r, db1) => mkSys db1 (workers s) (tasks s ++ [r])%list
      | (_, db1) => mkSys db1 (workers s) (tasks s)
      end
  end.

Fixpoint run_events (evs : list (nat * Event)) (s : Sys) : Sys :=
  match evs with
  | [] => s
  | (now, e) :: rest => run_events rest (sys_step now e s)
  end.

(** Worker [w] holds the job [job_id]. *)
Definition holds (s : Sys) (w : nat) (job_id : string) : bool :=
  match nth w (workers s) None with
  | Some j => String.eqb (id j) job_id
  | None => false
  end.

(** ** Lemmas on the dashboard *)

Definition count_in (user_id0 : string) (st : JobStatus.t) (rows : list JobQueue) : nat :=
  length (filter (fun j => owned_by user_id0 j && JobStatus.eqb (status j) st) rows).

Lemma tally_filter user rows st :
  let t := tally (filter (owned_by user) rows) st in
  total_jobs t = total_jobs st /\
  pending_jobs t = pending_jobs st + count_in user JobStatus.PENDING rows /\
  processing_jobs t = processing_jobs st + count_in user JobStatus.PROCESSING rows /\
  completed_jobs t = completed_jobs st + count_in user JobStatus.COMPLETED rows /\
  failed_jobs t = failed_jobs st + count_in user JobStatus.FAILED rows /\
  success_rate t = success_rate st.
Proof.
  unfold count_in; revert st; induction rows as [|a rows IH]; intros st; simpl.
  - repeat split; lia.
  - destruct (owned_by user a); simpl.
    + destruct (IH (tally_row a st)) as (H1 & H2 & H3 & H4 & H5 & H6).
      unfold tally_row in *; destruct (status a); simpl in *;
        repeat split; first [lia | congruence].
    + apply IH.
Qed.

Lemma length_owned user rows :
  length (filter (owned_by user) rows)
  = count_in user JobStatus.PENDING rows + count_in user JobStatus.PROCESSING rows
    + count_in user JobStatus.COMPLETED rows + count_in user JobStatus.FAILED rows
    + count_in user JobStatus.CANCELLED rows.
Proof.
  unfold count_in; induction rows as [|a rows IH]; simpl; [reflexivity|].
  destruct (owned_by user a); simpl; [destruct (status a); simpl; lia | exact IH].
Qed.

(** C4 (amended).  The dashboard counts the caller's jobs per status and
    divides the COMPLETED count by the number of ALL the caller's jobs
    (PENDING, PROCESSING and CANCELLED ones included), not by
    COMPLETED + FAILED; with no job the rate is 0. *)
Theorem C4_success_rate_over_all_jobs :
  forall user db,
  let s := get_dashboard_stats user db in
  let n := count_status user JobStatus.PENDING db + count_status user JobStatus.PROCESSING db
           + count_status user JobStatus.COMPLETED db + count_status user JobStatus.FAILED db
           + count_status user JobStatus.CANCELLED db in
  total_jobs s = n /\
  pending_jobs s = count_status user JobStatus.PENDING db /\
  processing_jobs s = count_status user JobStatus.PROCESSING db /\
  completed_jobs s = count_status user JobStatus.COMPLETED db /\
  failed_jobs s = count_status user JobStatus.FAILED db /\
  (success_rate s ==
     if Nat.eqb n 0 then 0
     else inject_Z (Z.of_nat (count_status user JobStatus.COMPLETED db)) / inject_Z (Z.of_nat n))%Q.
Proof.
  intros user db s n; subst s n; unfold get_dashboard_stats, job_queue_dashboard; cbn zeta.
  destruct (tally_filter user (job_queue db)
              (mkStats (length (filter (owned_by user) (job_queue db))) 0 0 0 0 None None 0%Q [] []))
    as (H1 & H2 & H3 & H4 & H5 & H6).
  set (t := tally _ _) in *; simpl in H1, H2, H3, H4, H5, H6.
  rewrite length_owned in H1; unfold count_status.
  fold (count_in user JobStatus.PENDING (job_queue db)) (count_in user JobStatus.PROCESSING (job_queue db))
    (count_in user JobStatus.COMPLETED (job_queue db)) (count_in user JobStatus.FAILED (job_queue db))
    (count_in user JobStatus.CANCELLED (job_queue db)).
  simpl; rewrite H1, H2, H3, H4, H5, H6.
  repeat split; try reflexivity.
  destruct (_ + _ + _ + _ + _) as [|m]; simpl; reflexivity.
Qed.

Definition c4_db : DB :=
  db_of [sample_job "job-1" CV_GENERATION 5 3 0 JobStatus.COMPLETED 1;
         sample_job "job-2" CV_GENERATION 5 3 0 JobStatus.COMPLETED 2;
         sample_job "job-3" CV_GENERATION 5 3 0 JobStatus.FAILED 3;
         sample_job "job-4" CV_GENERATION 5 3 0 JobStatus.PENDING 4].

(** C4 counterexample: on 2 COMPLETED, 1 FAILED and 1 PENDING job the rate
    is 1/2, not 2/3 (pending_jobs is 1 as stated). *)
Lemma C4_counterexample :
  (success_rate (get_dashboard_stats owner c4_db) == 1 # 2)%Q /\
  ~ (success_rate (get_dashboard_stats owner c4_db) == 2 # 3)%Q /\
  pending_jobs (get_dashboard_stats owner c4_db) = 1.
Proof.
  split; [|split].
  - vm_compute; reflexivity.
  - vm_compute; discriminate.
  - vm_compute; reflexivity.
Qed.

(** ** Lemmas on the claim *)

Lemma has_id_eq jid j : has_id jid j = true -> id j = jid.
Proof. unfold has_id; intros H; apply String.eqb_eq; exact H. Qed.

Lemma find_job_has_id jid rows r : find_job jid rows = Some r -> has_id jid r = true /\ In r rows.
Proof.
  unfold find_job; intros H; split; [exact (proj2 (find_some _ _ H)) | exact (proj1 (find_some _ _ H))].
Qed.

Lemma update_where_none {A} (p : A -> bool) f rows :
  (forall k, In k rows -> p k = false) -> update_where p f rows = rows.
Proof.
  induction rows as [|a rows IH]; intros H; simpl; [reflexivity|].
  rewrite (H a (or_introl eq_refl)); f_equal; apply IH; intros k Hk; apply H; right; exact Hk.
Qed.

Lemma filter_all_false {A} (p : A -> bool) rows :
  (forall k, In k rows -> p k = false) -> filter p rows = [].
Proof.
  induction rows as [|a rows IH]; intros H; simpl; [reflexivity|].
  rewrite (H a (or_introl eq_refl)); apply IH; intros k Hk; apply H; right; exact Hk.
Qed.

Lemma update_where_compose {A} (p : A -> bool) f g rows :
  (forall x, p (g x) = p x) ->
  update_where p f (update_where p g rows) = update_where p (fun x => f (g x)) rows.
Proof.
  intros Hg; induction rows as [|a rows IH]; simpl; [reflexivity|].
  rewrite IH; destruct (p a) eqn:E; [rewrite Hg, E | rewrite E]; reflexivity.
Qed.

Lemma map_id_update jid f rows :
  (forall x, id (f x) = id x) -> map id (update_where (has_id jid) f rows) = map id rows.
Proof.
  intros Hf; induction rows as [|a rows IH]; simpl; [reflexivity|].
  rewrite IH; destruct (has_id jid a); [rewrite Hf|]; reflexivity.
Qed.

Lemma find_owned_update jid user f rows :
  (forall x, id (f x) = id x) -> (forall x, user_id (f x) = user_id x) ->
  find_owned jid user (update_where (has_id jid) f rows) = option_map f (find_owned jid user rows).
Proof.
  intros Hi Hu; unfold find_owned, has_id; induction rows as [|a rows IH]; simpl; [reflexivity|].
  destruct (String.eqb (id a) jid) eqn:E; simpl.
  - rewrite Hi, Hu, E; simpl; destruct (String.eqb (user_id a) user); [reflexivity | exact IH].
  - rewrite E; exact IH.
Qed.

Lemma select_single now rows e :
  filter (eligible now) rows = [e] -> select_next now rows = Some e.
Proof. unfold select_next; intros H; rewrite H; reflexivity. Qed.

Lemma select_none now rows :
  filter (eligible now) rows = [] -> select_next now rows = None.
Proof. unfold select_next; intros H; rewrite H; reflexivity. Qed.

Lemma eligible_start_update now t j : eligible now (start_update t j) = false.
Proof. reflexivity. Qed.

(** Once the only eligible job is claimed, no job is eligible. *)
Lemma filter_after_claim now jid rows :
  (forall a, In a (filter (eligible now) rows) -> has_id jid a = true) ->
  filter (eligible now) (update_where (has_id jid) (start_update now) rows) = [].
Proof.
  induction rows as [|a rows IH]; intros H; simpl; [reflexivity|].
  destruct (has_id jid a) eqn:Ea; simpl.
  - apply IH; intros k Hk; apply H; simpl; destruct (eligible now a); [right|]; exact Hk.
  - destruct (eligible now a) eqn:El.
    + exfalso; assert (Hi : has_id jid a = true) by (apply H; simpl; rewrite El; left; reflexivity).
      congruence.
    + apply IH; intros k Hk; apply H; simpl; rewrite El; exact Hk.
Qed.

Lemma claim_all_none n now db :
  filter (eligible now) (job_queue db) = [] -> claim_all n now db = repeat None n.
Proof.
  induction n as [|n IH]; intros H; simpl; [reflexivity|].
  unfold get_next_job_from_queue; rewrite (select_none _ _ H); f_equal; apply IH, H.
Qed.

(** Only the row [r] of [jid] can become eligible through an update of it. *)
Lemma filter_eligible_single now jid f rows r :
  NoDup (map id rows) -> find_job jid rows = Some r ->
  (forall k, In k rows -> eligible now k = false) ->
  eligible now (f r) = true ->
  filter (eligible now) (update_where (has_id jid) f rows) = [f r].
Proof.
  unfold find_job; induction rows as [|a rows IH]; intros Hu Hf Hn He; simpl in *; [discriminate|].
  inversion Hu as [|? ? Hnin Hu']; subst.
  destruct (has_id jid a) eqn:Ea.
  - injection Hf as <-; simpl; rewrite He.
    rewrite update_where_none, filter_all_false; [reflexivity| |].
    + intros k Hk; apply Hn; right; exact Hk.
    + intros k Hk; destruct (has_id jid k) eqn:Ek; [|reflexivity].
      exfalso; apply Hnin; rewrite (has_id_eq _ _ Ea), <- (has_id_eq _ _ Ek).
      apply in_map; exact Hk.
  - simpl; rewrite (Hn a (or_introl eq_refl)); apply IH; auto.
Qed.

Lemma nth_set_nth_same {A} n (x d : A) l : n < length l -> nth n (set_nth n x l) d = x.
Proof.
  revert n; induction l as [|h t IH]; intros n Hn; simpl in *; [lia|].
  destruct n; simpl; [reflexivity | apply IH; lia].
Qed.

Lemma nth_set_nth_other {A} m n (x d : A) l : m <> n -> nth m (set_nth n x l) d = nth m l d.
Proof.
  revert m n; induction l as [|h t IH]; intros m n Hmn; simpl; [destruct n, m; reflexivity|].
  destruct n, m; simpl; try reflexivity; [congruence|]; apply IH; lia.
Qed.

Lemma cancel_job_eq jid user req now db r :
  ids_unique db -> find_owned jid user (job_queue db) = Some r ->
  status r = JobStatus.PENDING \/ status r = JobStatus.PROCESSING ->
  cancel_job jid user req now db
  = (Ok (cancel_update req now r),
     set_job_queue (update_where (has_id jid) (cancel_update req now)) db).
Proof.
  intros Hu Ho Hs; pose proof (owned_is_job _ _ _ _ Hu Ho) as Hj.
  unfold cancel_job; rewrite Ho.
  destruct Hs as [Hs|Hs]; rewrite Hs; simpl; rewrite find_job_update, Hj by reflexivity; reflexivity.
Qed.

Lemma retry_job_eq jid user req now db r :
  ids_unique db -> find_owned jid user (job_queue db) = Some r ->
  status r = JobStatus.FAILED \/ status r = JobStatus.CANCELLED ->
  retry_job jid user req now db
  = (Ok (retry_update req now r),
     set_steps (update_where (fun s => String.eqb (Step.job_queue_id s) jid) (step_reset now))
       (set_job_queue (update_where (has_id jid) (retry_update req now)) db)).
Proof.
  intros Hu Ho Hs; pose proof (owned_is_job _ _ _ _ Hu Ho) as Hj.
  unfold retry_job; rewrite Ho.
  destruct Hs as [Hs|Hs]; rewrite Hs; simpl; rewrite find_job_update, Hj by reflexivity; reflexivity.
Qed.

(** C2 (amended).  The claim of the store, taken as atomic (the callers
    are serialised), hands a single eligible job to exactly one caller:
    of [N >= 1] callers the first gets it (now PROCESSING) and the other
    [N - 1] get none.  It does not keep a job with one worker: while a
    worker still runs a job it claimed, the owner may cancel it
    (PROCESSING is cancellable) and retry it (CANCELLED goes back to
    PENDING), and the next poll of another worker claims it again, so two
    workers hold the same job while it is PROCESSING. *)
Theorem C2_atomic_claim_no_mutual_exclusion :
  (forall n now db e,
     filter (eligible now) (job_queue db) = [e] ->
     claim_all (S n) now db = Some (start_update now e) :: repeat None n) /\
  (forall s a b jid user creq rreq now r ja,
     a <> b -> b < length (workers s) ->
     nth a (workers s) None = Some ja -> id ja = jid ->
     nth b (workers s) None = None ->
     ids_unique (sdb s) ->
     find_owned jid user (job_queue (sdb s)) = Some r ->
     status r = JobStatus.PROCESSING ->
     (forall k, In k (job_queue (sdb s)) -> eligible now k = false) ->
     or_keep (retry_scheduled_at rreq) (scheduled_at r) <= now ->
     let s' := run_events [(now, Cancel jid user creq); (now, Retry jid user rreq);
                           (now, Poll b)] s in
     holds s' a jid = true /\ holds s' b jid = true /\
     option_map status (find_job jid (job_queue (sdb s'))) = Some JobStatus.PROCESSING).
Proof.
  split.
  - intros n now db e H.
    change (claim_all (S n) now db)
      with (let (r, db1) := get_next_job_from_queue now db in r :: claim_all n now db1).
    unfold get_next_job_from_queue; rewrite (select_single _ _ _ H).
    f_equal; apply claim_all_none; simpl; apply filter_after_claim.
    rewrite H; intros k [<-|[]]; unfold has_id; apply String.eqb_refl.
  - intros s a b jid user creq rreq now r ja Hab Hbl Ha Hja Hb Hu Ho Hs Hn Hsched s'.
    pose proof (owned_is_job _ _ _ _ Hu Ho) as Hj.
    pose proof (has_id_eq _ _ (proj1 (find_job_has_id _ _ _ Hj))) as Hid.
    set (db1 := set_job_queue (update_where (has_id jid) (cancel_update creq now)) (sdb s)).
    assert (E1 : sys_step now (Cancel jid user creq) s = mkSys db1 (workers s) (tasks s)).
    { unfold sys_step; rewrite (cancel_job_eq _ _ _ _ _ r Hu Ho (or_intror Hs)); reflexivity. }
    assert (Hu1 : ids_unique db1)
      by (unfold ids_unique; simpl; rewrite map_id_update; [exact Hu | reflexivity]).
    assert (Ho1 : find_owned jid user (job_queue db1) = Some (cancel_update creq now r))
      by (simpl; rewrite find_owned_update, Ho; reflexivity).
    set (x := retry_update rreq now (cancel_update creq now r)).
    set (db2 := set_steps (update_where (fun s0 => String.eqb (Step.job_queue_id s0) jid)
                                        (step_reset now))
                  (set_job_queue (update_where (has_id jid) (retry_update rreq now)) db1)).
    assert (E2 : sys_step now (Retry jid user rreq) (mkSys db1 (workers s) (tasks s))
                 = mkSys db2 (workers s) (tasks s ++ [x])%list).
    { unfold sys_step; simpl sdb;
        rewrite (retry_job_eq _ _ _ _ _ _ Hu1 Ho1 (or_intror eq_refl)); reflexivity. }
    assert (Hq2 : job_queue db2
                  = update_where (has_id jid) (fun y => retry_update rreq now (cancel_update creq now y))
                      (job_queue (sdb s)))
      by (apply update_where_compose; reflexivity).
    assert (Hf : filter (eligible now) (job_queue db2) = [x]).
    { rewrite Hq2;
        apply (filter_eligible_single now jid
                 (fun y => retry_update rreq now (cancel_update creq now y)) _ r Hu Hj Hn).
      unfold eligible; simpl; apply Nat.leb_le; exact Hsched. }
    set (db3 := set_job_queue (update_where (has_id (id x)) (start_update now)) db2).
    assert (E3 : sys_step now (Poll b) (mkSys db2 (workers s) (tasks s ++ [x])%list)
                 = mkSys db3 (set_nth b (Some (start_update now x)) (workers s))
                     (tasks s ++ [x])%list).
    { unfold sys_step; simpl workers; rewrite Hb; simpl sdb;
        unfold get_next_job_from_queue; rewrite (select_single _ _ _ Hf); reflexivity. }
    assert (Hx : id x = jid) by exact Hid.
    subst s'; cbn [run_events]; rewrite E1, E2, E3; unfold holds; cbn [workers sdb].
    rewrite (nth_set_nth_other a b), Ha, Hja by exact Hab.
    rewrite (nth_set_nth_same b) by exact Hbl.
    split; [apply String.eqb_refl|split; [exact (proj2 (String.eqb_eq _ _) Hx)|]].
    unfold db3; cbn [set_job_queue job_queue]; rewrite Hx, find_job_update by reflexivity.
    rewrite Hq2, find_job_update, Hj by reflexivity; reflexivity.
Qed.

(** Two workers, the first one running [e_job PROCESSING]. *)
Definition c2_sys : Sys := mkSys (db_of [e_job JobStatus.PROCESSING]) [Some (e_job JobStatus.PROCESSING); None] [].

Lemma C2_atomic_claim_no_mutual_exclusion_witness :
  claim_all 3 5 (db_of [e_job JobStatus.PENDING])
    = [Some (start_update 5 (e_job JobStatus.PENDING)); None; None] /\
  (let s' := run_events [(5, Cancel "job-1" owner cancel_plain); (5, Retry "job-1" owner retry_plain);
                         (5, Poll 1)] c2_sys in
   holds s' 0 "job-1" = true /\ holds s' 1 "job-1" = true /\
   option_map status (find_job "job-1" (job_queue (sdb s'))) = Some JobStatus.PROCESSING).
Proof.
  split.
  - apply (proj1 C2_atomic_claim_no_mutual_exclusion 2 5 _ (e_job JobStatus.PENDING)).
    reflexivity.
  - apply (proj2 C2_atomic_claim_no_mutual_exclusion c2_sys 0 1 "job-1" owner cancel_plain
             retry_plain 5 (e_job JobStatus.PROCESSING) (e_job JobStatus.PROCESSING));
      try reflexivity.
    + discriminate.
    + simpl; lia.
    + apply ids_unique_single.
    + intros k [<-|[]]; reflexivity.
    + simpl; lia.
Defined.

(** C2 counterexample: worker 0 claims the job; while its handler runs
    the owner cancels and retries it and worker 1 claims it: both
    workers hold the job, which is PROCESSING. *)
Lemma C2_counterexample :
  let s := run_events [(1, Poll 0); (2, Cancel "job-1" owner cancel_plain);
                       (3, Retry "job-1" owner retry_plain); (4, Poll 1)]
             (mkSys (db_of [e_job JobStatus.PENDING]) [None; None] []) in
  holds s 0 "job-1" = true /\ holds s 1 "job-1" = true /\
  option_map status (find_job "job-1" (job_queue (sdb s))) = Some JobStatus.PROCESSING.
Proof. vm_compute; repeat split. Qed.

(** ** Lemmas on the claim order and on bulk creation *)















(** ** Listing jobs ([GET /jobs/]) *)

Module JobSearchFilters.
Record t := mk {
  job_type : option JobType;
  status : option JobStatus.t;
  date_from : option nat;
  date_to : option nat;
  priority_min : option nat;
  priority_max : option nat;
  limit : nat;
  offset : nat
}.
End JobSearchFilters.

(** [.range(a, b)]: the rows [a] to [b] of the result, both included
    ([limit >= 1] by validation, so [b >= a]). *)
Definition range_rows {A} (a b : nat) (rows : list A) : list A :=
  firstn (S b - a) (skipn a rows).

(** The query of [get_jobs] before ordering: the caller's rows and each
    filter whose value is truthy (the integer [0] is not). *)
Definition search_rows (filters : JobSearchFilters.t) (current_user : string)
  (rows : list JobQueue) : list JobQueue :=
  let q0 := filter (owned_by current_user) rows in
  let q1 := match JobSearchFilters.job_type filters with
            | Some t => filter (fun j => String.eqb (JobType_value (job_type j)) (JobType_value t)) q0
            | None => q0 end in
  let q2 := match JobSearchFilters.status filters with
            | Some s => filter (fun j => String.eqb (JobStatus.value (status j)) (JobStatus.value s)) q1
            | None => q1 end in
  let q3 := match JobSearchFilters.date_from filters with
            | Some d => filter (fun j => Nat.leb d (created_at j)) q2
            | None => q2 end in
  let q4 := match JobSearchFilters.date_to filters with
            | Some d => filter (fun j => Nat.leb (created_at j) d) q3
            | None => q3 end in
  let q5 := match JobSearchFilters.priority_min filters with
            | Some p => if Nat.eqb p 0 then q4 else filter (fun j => Nat.leb p (priority j)) q4
            | None => q4 end in
  match JobSearchFilters.priority_max filters with
  | Some p => if Nat.eqb p 0 then q5 else filter (fun j => Nat.leb (priority j) p) q5
  | None => q5
  end.

Definition get_jobs (filters : JobSearchFilters.t) (current_user : string) (db : DB)
  : list JobQueue :=
  range_rows (JobSearchFilters.offset filters)
    (JobSearchFilters.offset filters + JobSearchFilters.limit filters - 1)
    (order_created_desc (search_rows filters current_user (job_queue db))).

(** The conditions [get_jobs] puts on a row, as propositions. *)
Definition matches_search (f : JobSearchFilters.t) (u : string) (j : JobQueue) : Prop :=
  user_id j = u /\
  match JobSearchFilters.job_type f with Some t => job_type j = t | None => True end /\
  match JobSearchFilters.status f with Some s => status j = s | None => True end /\
  match JobSearchFilters.date_from f with Some d => d <= created_at j | None => True end /\
  match JobSearchFilters.date_to f with Some d => created_at j <= d | None => True end /\
  match JobSearchFilters.priority_min f with Some p => p <> 0 -> p <= priority j | None => True end /\
  match JobSearchFilters.priority_max f with Some p => p <> 0 -> priority j <= p | None => True end.

Lemma JobType_value_eqb (a b : JobType) :
  String.eqb (JobType_value a) (JobType_value b) = true <-> a = b.
Proof. destruct a, b; simpl; split; intro H; (reflexivity || discriminate H). Qed.

Lemma JobStatus_value_eqb (a b : JobStatus.t) :
  String.eqb (JobStatus.value a) (JobStatus.value b) = true <-> a = b.
Proof. destruct a, b; simpl; split; intro H; (reflexivity || discriminate H). Qed.

Lemma In_search_rows (f : JobSearchFilters.t) (u : string) (rows : list JobQueue) (j : JobQueue) :
  In j (search_rows f u rows) <-> In j rows /\ matches_search f u j.
Proof.
  unfold search_rows, matches_search.
  destruct (JobSearchFilters.job_type f) as [t|], (JobSearchFilters.status f) as [s|],
    (JobSearchFilters.date_from f) as [d1|], (JobSearchFilters.date_to f) as [d2|],
    (JobSearchFilters.priority_min f) as [p1|], (JobSearchFilters.priority_max f) as [p2|];
  try destruct (Nat.eqb_spec p1 0); try destruct (Nat.eqb_spec p2 0);
  repeat rewrite filter_In; unfold owned_by;
  rewrite ?JobType_value_eqb, ?JobStatus_value_eqb, ?String.eqb_eq, ?Nat.leb_le;
  split; intros; intuition (subst; auto; try lia).
Qed.

(** [created_at] descending: [a] comes no later than [b] in the order. *)
Definition newer_first (a b : JobQueue) : Prop := created_at b <= created_at a.

Lemma insert_created_perm (j : JobQueue) (l : list JobQueue) :
  Permutation (insert_created_desc j l) (j :: l).
Proof.
  induction l as [|k l IH]; simpl; [auto|].
  destruct (Nat.ltb (created_at k) (created_at j)); [auto|].
  eapply perm_trans; [apply perm_skip, IH | apply perm_swap].
Qed.

Lemma order_created_perm (l : list JobQueue) : Permutation (order_created_desc l) l.
Proof.
  induction l as [|k l IH]; simpl; [auto|].
  eapply perm_trans; [apply insert_created_perm | apply perm_skip; exact IH].
Qed.

Lemma insert_created_hd (a j : JobQueue) (l : list JobQueue) :
  HdRel newer_first a l -> newer_first a j -> HdRel newer_first a (insert_created_desc j l).
Proof.
  intros H Hj. destruct l as [|k l]; simpl; [constructor; exact Hj|].
  destruct (Nat.ltb (created_at k) (created_at j)); constructor; auto.
  inversion H; assumption.
Qed.

Lemma insert_created_sorted (j : JobQueue) (l : list JobQueue) :
  Sorted newer_first l -> Sorted newer_first (insert_created_desc j l).
Proof.
  induction 1 as [|k l Hs IH Hhd]; simpl; [constructor; auto|].
  destruct (Nat.ltb_spec (created_at k) (created_at j)).
  - constructor; [constructor; auto | constructor; unfold newer_first; lia].
  - constructor; [exact IH | apply insert_created_hd; [exact Hhd | unfold newer_first; lia]].
Qed.

Lemma order_created_sorted (l : list JobQueue) : Sorted newer_first (order_created_desc l).
Proof.
  induction l as [|k l IH]; simpl; [constructor|]. apply insert_created_sorted, IH.
Qed.

Lemma sorted_firstn {A} (R : A -> A -> Prop) (n : nat) (l : list A) :
  Sorted R l -> Sorted R (firstn n l).
Proof.
  revert l; induction n as [|n IH]; intros l H; [constructor|].
  destruct l as [|a l]; simpl; [constructor|].
  inversion H as [|? ? Hs Hhd]; subst. constructor; [apply IH, Hs|].
  destruct n, l; simpl; constructor. inversion Hhd; assumption.
Qed.

Lemma sorted_skipn {A} (R : A -> A -> Prop) (n : nat) (l : list A) :
  Sorted R l -> Sorted R (skipn n l).
Proof.
  revert l; induction n as [|n IH]; intros l H; [exact H|].
  destruct l as [|a l]; simpl; [constructor|]. inversion H; subst. apply IH; assumption.
Qed.

Lemma filter_le_trans {A} (p : A -> bool) (q r : list A) :
  length q <= length r -> length (filter p q) <= length r.
Proof. intros H. eapply Nat.le_trans; [apply filter_length_le | exact H]. Qed.

Lemma search_rows_length (f : JobSearchFilters.t) (u : string) (rows : list JobQueue) :
  length (search_rows f u rows) <= length (filter (owned_by u) rows).
Proof.
  unfold search_rows.
  destruct (JobSearchFilters.job_type f), (JobSearchFilters.status f),
    (JobSearchFilters.date_from f), (JobSearchFilters.date_to f),
    (JobSearchFilters.priority_min f) as [p1|], (JobSearchFilters.priority_max f) as [p2|];
  try destruct (Nat.eqb p1 0); try destruct (Nat.eqb p2 0);
  repeat (apply le_n || apply filter_le_trans).
Qed.

Lemma get_jobs_unfold (f : JobSearchFilters.t) (u : string) (db : DB) :
  1 <= JobSearchFilters.limit f ->
  get_jobs f u db = firstn (JobSearchFilters.limit f)
    (skipn (JobSearchFilters.offset f) (order_created_desc (search_rows f u (job_queue db)))).
Proof.
  intros H. unfold get_jobs, range_rows. f_equal. lia.
Qed.

Lemma In_firstn_sub {A} (n : nat) (l : list A) (x : A) : In x (firstn n l) -> In x l.
Proof. intros H. rewrite <- (firstn_skipn n l). apply in_or_app. left; exact H. Qed.

Lemma In_skipn_sub {A} (n : nat) (l : list A) (x : A) : In x (skipn n l) -> In x l.
Proof. intros H. rewrite <- (firstn_skipn n l). apply in_or_app. right; exact H. Qed.

Definition list_db : DB :=
  db_of [sample_job "job-1" CV_GENERATION 5 3 0 JobStatus.COMPLETED 1;
         sample_job "job-2" COVER_LETTER_GENERATION 2 3 0 JobStatus.PENDING 2;
         sample_job "job-3" CV_GENERATION 7 3 0 JobStatus.FAILED 3;
         mkJob "job-4" "other-user" CV_GENERATION 9 [] 3 4 JobStatus.PENDING 0 None
           1 [] None 0 None None 4 4].

Definition page (offset0 limit0 : nat) : JobSearchFilters.t :=
  JobSearchFilters.mk None None None None None None limit0 offset0.

Definition cv_min3 : JobSearchFilters.t :=
  JobSearchFilters.mk (Some CV_GENERATION) None None None (Some 3) None 10 0.

(** X1.  Every row [GET /jobs] returns is a row of [job_queue] owned by the
    caller that meets each filter given (a [priority_min] or
    [priority_max] of [0] is no filter). *)
Lemma get_jobs_sound (f : JobSearchFilters.t) (u : string) (db : DB) (j : JobQueue) :
  In j (get_jobs f u db) -> In j (job_queue db) /\ matches_search f u j.
Proof.
  unfold get_jobs, range_rows. intros H.
  apply In_firstn_sub in H. apply In_skipn_sub in H.
  apply In_search_rows. eapply Permutation_in; [apply order_created_perm | exact H].
Qed.

Lemma get_jobs_sound_witness :
  In (sample_job "job-3" CV_GENERATION 7 3 0 JobStatus.FAILED 3) (get_jobs cv_min3 owner list_db) /\
  In (sample_job "job-3" CV_GENERATION 7 3 0 JobStatus.FAILED 3) (job_queue list_db) /\
  matches_search cv_min3 owner (sample_job "job-3" CV_GENERATION 7 3 0 JobStatus.FAILED 3).
Proof.
  assert (H : In (sample_job "job-3" CV_GENERATION 7 3 0 JobStatus.FAILED 3)
                 (get_jobs cv_min3 owner list_db)) by (vm_compute; left; reflexivity).
  split; [exact H | exact (get_jobs_sound _ _ _ _ H)].
Defined.

(** X2.  The rows of [GET /jobs] come newest first: each row's
    [created_at] is no earlier than the next one's. *)
Lemma get_jobs_sorted (f : JobSearchFilters.t) (u : string) (db : DB) :
  Sorted newer_first (get_jobs f u db).
Proof.
  unfold get_jobs, range_rows. apply sorted_firstn, sorted_skipn, order_created_sorted.
Qed.

(** X3.  A page of [GET /jobs] holds at most [limit] rows ([limit >= 1],
    as the model validates). *)
Lemma get_jobs_page_length (f : JobSearchFilters.t) (u : string) (db : DB) :
  1 <= JobSearchFilters.limit f -> length (get_jobs f u db) <= JobSearchFilters.limit f.
Proof. intros H. rewrite get_jobs_unfold by exact H. apply firstn_le_length. Qed.

Lemma get_jobs_page_length_witness :
  length (get_jobs (page 0 2) owner list_db) <= 2.
Proof. apply (get_jobs_page_length (page 0 2)); simpl; lia. Defined.

(** X4.  With [offset = 0] and a [limit] no smaller than the caller's
    number of jobs, [GET /jobs] returns every job of the caller that
    meets the filters. *)
Lemma get_jobs_complete (f : JobSearchFilters.t) (u : string) (db : DB) (j : JobQueue) :
  JobSearchFilters.offset f = 0 -> 1 <= JobSearchFilters.limit f ->
  length (filter (owned_by u) (job_queue db)) <= JobSearchFilters.limit f ->
  In j (job_queue db) -> matches_search f u j -> In j (get_jobs f u db).
Proof.
  intros Ho Hl Hn Hin Hm. rewrite get_jobs_unfold by exact Hl. rewrite Ho; cbn [skipn].
  rewrite firstn_all2.
  - eapply Permutation_in; [symmetry; apply order_created_perm|]. apply In_search_rows; auto.
  - rewrite (Permutation_length (order_created_perm _)).
    eapply Nat.le_trans; [apply search_rows_length | exact Hn].
Qed.

Lemma get_jobs_complete_witness :
  In (sample_job "job-1" CV_GENERATION 5 3 0 JobStatus.COMPLETED 1) (get_jobs cv_min3 owner list_db).
Proof.
  apply get_jobs_complete; [reflexivity | simpl; lia | vm_compute; lia | simpl; auto |].
  unfold matches_search; simpl; repeat split; intros; lia.
Defined.

(** ** What a request never does to the jobs of other users *)

Lemma NoDup_map_inj {A B} (g : A -> B) (l : list A) (a b : A) :
  NoDup (map g l) -> In a l -> In b l -> g a = g b -> a = b.
Proof.
  induction l as [|x l IH]; intros Hn Ha Hb He; [contradiction|].
  inversion Hn as [|? ? Hx Hn']; subst.
  destruct Ha as [<-|Ha], Hb as [<-|Hb]; auto.
  - exfalso; apply Hx; rewrite He; apply in_map; exact Hb.
  - exfalso; apply Hx; rewrite <- He; apply in_map; exact Ha.
Qed.

Lemma other_user_not_target (jid u : string) (db : DB) (r0 k : JobQueue) :
  ids_unique db -> find_owned jid u (job_queue db) = Some r0 ->
  In k (job_queue db) -> user_id k <> u -> has_id jid k = false.
Proof.
  intros Hu Ho Hk Hne. unfold find_owned in Ho.
  destruct (find_some _ _ Ho) as [Hr0 Hp]. apply andb_true_iff in Hp as [Hi Hus].
  destruct (has_id jid k) eqn:E; [|reflexivity]. exfalso.
  assert (k = r0) as ->.
  { apply (NoDup_map_inj id (job_queue db)); auto.
    rewrite (has_id_eq _ _ E), (has_id_eq _ _ Hi); reflexivity. }
  apply Hne, String.eqb_eq, Hus.
Qed.

Lemma In_update_where_untouched {A} (p : A -> bool) (f : A -> A) (rows : list A) (k : A) :
  In k rows -> p k = false -> In k (update_where p f rows).
Proof.
  intros Hk Hp. unfold update_where. apply in_map_iff. exists k. rewrite Hp. auto.
Qed.

Ltac split_branches :=
  repeat match goal with
  | |- context [match ?x with _ => _ end] => destruct x
  end.

(** X8.  No request of [u] to [PUT], [DELETE], [retry] or [cancel] a job
    changes or removes a row of [job_queue] that belongs to another user
    ([id] being the primary key). *)
Lemma other_users_rows_kept (jid u : string) (upd : JobQueueUpdate.t) (rr : JobRetryRequest)
  (rc : JobCancellationRequest) (now : nat) (db : DB) (k : JobQueue) :
  ids_unique db -> In k (job_queue db) -> user_id k <> u ->
  In k (job_queue (snd (update_job jid u upd now db))) /\
  In k (job_queue (snd (delete_job jid u db))) /\
  In k (job_queue (snd (retry_job jid u rr now db))) /\
  In k (job_queue (snd (cancel_job jid u rc now db))).
Proof.
  intros Hu Hk Hne. unfold update_job, delete_job, retry_job, cancel_job.
  destruct (find_owned jid u (job_queue db)) as [r0|] eqn:Eo; [|cbn; auto].
  pose proof (other_user_not_target jid u db r0 k Hu Eo Hk Hne) as Hn.
  repeat split; split_branches; cbn [snd set_job_queue set_steps job_queue];
    try apply In_update_where_untouched; auto.
  apply filter_In; rewrite Hn; auto.
Qed.

Lemma other_users_rows_kept_witness :
  In (mkJob "job-4" "other-user" CV_GENERATION 9 [] 3 4 JobStatus.PENDING 0 None
        1 [] None 0 None None 4 4)
     (job_queue (snd (cancel_job "job-4" owner (mkCancel None) 10 list_db))).
Proof.
  apply (other_users_rows_kept "job-4" owner (set_status_only JobStatus.FAILED) (mkRetry true None None)
           (mkCancel None) 10 list_db).
  - unfold ids_unique; vm_compute. repeat constructor; simpl; intuition discriminate.
  - simpl; tauto.
  - discriminate.
Defined.

Lemma has_id_false (jid : string) (k : JobQueue) : id k <> jid -> has_id jid k = false.
Proof. intros H. unfold has_id. apply String.eqb_neq, H. Qed.

(** X9.  A [DELETE] that succeeds was on a job of the caller that was not
    PROCESSING; afterwards no row and no step row of that job is left, and
    every row and step row of the other jobs is kept. *)
Lemma delete_job_effect (jid u : string) (db db' : DB) :
  delete_job jid u db = (NoContent, db') ->
  (exists r, find_owned jid u (job_queue db) = Some r /\ status r <> JobStatus.PROCESSING) /\
  find_job jid (job_queue db') = None /\
  (forall s, In s (job_processing_steps db') -> Step.job_queue_id s <> jid) /\
  (forall k, In k (job_queue db) -> id k <> jid -> In k (job_queue db')) /\
  (forall s, In s (job_processing_steps db) -> Step.job_queue_id s <> jid ->
             In s (job_processing_steps db')).
Proof.
  unfold delete_job. intros H.
  destruct (find_owned jid u (job_queue db)) as [r|] eqn:Eo; [|discriminate H].
  destruct (String.eqb (JobStatus.value (status r)) "processing") eqn:Ep; [discriminate H|].
  injection H as <-. cbn [job_queue job_processing_steps].
  repeat split.
  - exists r; split; [reflexivity|]. intros Hs; rewrite Hs in Ep; discriminate Ep.
  - apply find_job_filter_out.
  - intros s Hs He. apply filter_In in Hs as [_ Hs]. rewrite He, String.eqb_refl in Hs. discriminate Hs.
  - intros k Hk Hne. apply filter_In; rewrite has_id_false by exact Hne; auto.
  - intros s Hs Hne. apply filter_In; split; [exact Hs|].
    destruct (String.eqb_spec (Step.job_queue_id s) jid); [contradiction | reflexivity].
Qed.

Lemma delete_job_effect_witness :
  delete_job "job-2" owner list_db = (NoContent, snd (delete_job "job-2" owner list_db)) /\
  find_job "job-2" (job_queue (snd (delete_job "job-2" owner list_db))) = None.
Proof.
  assert (H : delete_job "job-2" owner list_db
              = (NoContent, snd (delete_job "job-2" owner list_db))) by reflexivity.
  split; [exact H | exact (proj1 (proj2 (delete_job_effect _ _ _ _ H)))].
Defined.

Lemma retry_steps_length (jid : string) (now : nat) (steps0 : list Step.t) :
  length (update_where (fun s => String.eqb (Step.job_queue_id s) jid) (step_reset now) steps0)
  = length steps0.
Proof. unfold update_where; apply length_map. Qed.

Lemma retry_steps_reset (jid : string) (now : nat) (steps0 : list Step.t) :
  forall s, In s (update_where (fun s => String.eqb (Step.job_queue_id s) jid) (step_reset now) steps0) ->
  Step.job_queue_id s = jid ->
  Step.status s = StepStatus.PENDING /\ Step.progress_percentage s = 0 /\
  Step.error_message s = None /\ Step.started_at s = None /\ Step.completed_at s = None.
Proof.
  intros s Hin He. unfold update_where in Hin. apply in_map_iff in Hin as [y [Ey _]].
  destruct (String.eqb_spec (Step.job_queue_id y) jid) as [_|Hne].
  - subst s; repeat split.
  - subst y; contradiction.
Qed.

Lemma retry_steps_kept (jid : string) (now : nat) (steps0 : list Step.t) :
  forall s, In s steps0 -> Step.job_queue_id s <> jid ->
  In s (update_where (fun s => String.eqb (Step.job_queue_id s) jid) (step_reset now) steps0).
Proof.
  intros s Hin Hne. apply In_update_where_untouched; [exact Hin|].
  destruct (String.eqb_spec (Step.job_queue_id s) jid); [contradiction | reflexivity].
Qed.

(** X10.  An accepted retry was on a FAILED or CANCELLED job of the caller;
    it stores the row it returns, which is PENDING with progress 0 and no
    error ([retry_count] 0 when a reset is asked); every step row of the
    job is reset to PENDING with progress 0 and no error or timestamps,
    and the step rows of other jobs and the number of step rows are kept. *)
Lemma retry_job_effect (jid u : string) (req : JobRetryRequest) (now : nat) (db db' : DB)
  (r' : JobQueue) :
  retry_job jid u req now db = (Ok r', db') ->
  (exists r, find_owned jid u (job_queue db) = Some r /\
             (status r = JobStatus.FAILED \/ status r = JobStatus.CANCELLED)) /\
  find_job jid (job_queue db') = Some r' /\
  status r' = JobStatus.PENDING /\ progress_percentage r' = 0 /\ error_message r' = None /\
  (reset_retry_count req = true -> retry_count r' = 0) /\
  length (job_processing_steps db') = length (job_processing_steps db) /\
  (forall s, In s (job_processing_steps db') -> Step.job_queue_id s = jid ->
     Step.status s = StepStatus.PENDING /\ Step.progress_percentage s = 0 /\
     Step.error_message s = None /\ Step.started_at s = None /\ Step.completed_at s = None) /\
  (forall s, In s (job_processing_steps db) -> Step.job_queue_id s <> jid ->
     In s (job_processing_steps db')).
Proof.
  unfold retry_job. intros H.
  destruct (find_owned jid u (job_queue db)) as [r|] eqn:Eo; [|discriminate H].
  assert (Hst : status r = JobStatus.FAILED \/ status r = JobStatus.CANCELLED)
    by (destruct (status r); auto; discriminate H).
  assert (Hk : forall x, find_job jid (job_queue db) = Some x ->
            find_job jid (update_where (has_id jid) (retry_update req now) (job_queue db))
            = Some (retry_update req now x))
    by (intros x Ex; rewrite find_job_update by reflexivity; rewrite Ex; reflexivity).
  destruct Hst as [Hs|Hs]; rewrite Hs in H; cbn [set_job_queue job_queue] in H;
    rewrite find_job_update in H by reflexivity;
    destruct (find_job jid (job_queue db)) as [x|] eqn:Ef; cbn [option_map] in H; try discriminate H;
    injection H as <- <-; cbn [set_job_queue set_steps job_queue job_processing_steps];
    refine (conj (ex_intro _ r (conj eq_refl _)) (conj (Hk x eq_refl) (conj eq_refl (conj eq_refl
              (conj eq_refl (conj _ (conj (retry_steps_length _ _ _) (conj (retry_steps_reset _ _ _)
              (retry_steps_kept _ _ _))))))))); auto;
    intros Hr; cbn; rewrite Hr; reflexivity.
Qed.

Lemma retry_job_effect_witness :
  retry_job "job-3" owner (mkRetry true None None) 10 list_db
  = (Ok (retry_update (mkRetry true None None) 10 (sample_job "job-3" CV_GENERATION 7 3 0 JobStatus.FAILED 3)),
     snd (retry_job "job-3" owner (mkRetry true None None) 10 list_db)) /\
  status (retry_update (mkRetry true None None) 10 (sample_job "job-3" CV_GENERATION 7 3 0 JobStatus.FAILED 3)) = JobStatus.PENDING.
Proof.
  assert (H : retry_job "job-3" owner (mkRetry true None None) 10 list_db
              = (Ok (retry_update (mkRetry true None None) 10 (sample_job "job-3" CV_GENERATION 7 3 0 JobStatus.FAILED 3)),
                 snd (retry_job "job-3" owner (mkRetry true None None) 10 list_db))) by reflexivity.
  split; [exact H | exact (proj1 (proj2 (proj2 (retry_job_effect _ _ _ _ _ _ _ H))))].
Defined.

(** X11.  [cancel_job] never changes a step row, whatever its outcome (a
    step left PROCESSING stays PROCESSING), and keeps every row of
    [job_queue] with another id. *)
Lemma cancel_job_frame (jid u : string) (req : JobCancellationRequest) (now : nat) (db : DB) :
  job_processing_steps (snd (cancel_job jid u req now db)) = job_processing_steps db /\
  (forall k, In k (job_queue db) -> id k <> jid -> In k (job_queue (snd (cancel_job jid u req now db)))).
Proof.
  unfold cancel_job. destruct (find_owned jid u (job_queue db)); [|cbn; auto].
  split; split_branches; cbn [snd set_job_queue job_queue job_processing_steps]; auto;
    intros k Hk Hne; apply In_update_where_untouched; auto; apply has_id_false, Hne.
Qed.

(** X12.  A [PUT] with no field set writes nothing and returns the
    caller's row as it is ([id] being the primary key). *)
Lemma update_job_empty (jid u : string) (upd : JobQueueUpdate.t) (now : nat) (db : DB) (r : JobQueue) :
  ids_unique db -> JobQueueUpdate.any_set upd = false ->
  find_owned jid u (job_queue db) = Some r ->
  update_job jid u upd now db = (Ok r, db).
Proof.
  intros Hu Ha Ho. unfold update_job. rewrite Ho, Ha.
  rewrite (owned_is_job _ _ _ _ Hu Ho). reflexivity.
Qed.

Lemma update_job_empty_witness :
  update_job "job-1" owner (JobQueueUpdate.mk None None None None None None) 10 list_db
  = (Ok (sample_job "job-1" CV_GENERATION 5 3 0 JobStatus.COMPLETED 1), list_db).
Proof.
  apply update_job_empty; [|reflexivity|reflexivity].
  unfold ids_unique; vm_compute. repeat constructor; simpl; intuition discriminate.
Defined.

(** ** The dashboard *)

Lemma newer_first_trans : Relations_1.Transitive newer_first.
Proof. unfold Relations_1.Transitive, newer_first; intros; lia. Qed.

Lemma strongly_sorted_app {A} (R : A -> A -> Prop) (l1 l2 : list A) (x y : A) :
  StronglySorted R (l1 ++ l2) -> In x l1 -> In y l2 -> R x y.
Proof.
  induction l1 as [|a l1 IH]; intros Hs Hx Hy; [contradiction|].
  simpl in Hs. apply StronglySorted_inv in Hs as [Hs Hf].
  destruct Hx as [<-|Hx].
  - rewrite Forall_forall in Hf. apply Hf, in_or_app; right; exact Hy.
  - apply IH; assumption.
Qed.

(** X13.  [recent_jobs] of the dashboard holds at most 5 of the user's
    jobs, newest first, and they are the newest: a job of the user left
    out means 5 jobs are listed, none of them older than it. *)
Lemma dashboard_recent_jobs (u : string) (db : DB) :
  let rj := recent_jobs (get_dashboard_stats u db) in
  length rj <= 5 /\
  (forall j, In j rj -> In j (job_queue db) /\ user_id j = u) /\
  Sorted newer_first rj /\
  (forall j, In j (job_queue db) -> user_id j = u -> ~ In j rj ->
     length rj = 5 /\ forall k, In k rj -> created_at j <= created_at k).
Proof.
  cbn zeta. unfold get_dashboard_stats; cbn [recent_jobs].
  set (L := order_created_desc (filter (owned_by u) (job_queue db))).
  assert (HL : forall j, In j L <-> In j (job_queue db) /\ user_id j = u).
  { intros j. unfold L. split.
    - intros H. apply (Permutation_in _ (order_created_perm _)) in H.
      apply filter_In in H as [H1 H2]. split; [exact H1 | apply String.eqb_eq, H2].
    - intros [H1 H2]. apply (Permutation_in _ (Permutation_sym (order_created_perm _))).
      apply filter_In; split; [exact H1 | apply String.eqb_eq, H2]. }
  assert (Hs : Sorted newer_first L) by apply order_created_sorted.
  split; [apply firstn_le_length|].
  split; [intros j Hj; apply HL; exact (In_firstn_sub _ _ _ Hj)|].
  split; [apply sorted_firstn, Hs|].
  intros j Hj Hu Hn.
  assert (Hin : In j (skipn 5 L)).
  { assert (Hj' : In j L) by (apply HL; auto). rewrite <- (firstn_skipn 5 L) in Hj'.
    apply in_app_or in Hj' as [H|H]; [contradiction | exact H]. }
  split.
  - apply firstn_length_le. destruct (Nat.le_gt_cases (length L) 5) as [Hle|]; [|lia].
    rewrite skipn_all2 in Hin by exact Hle. contradiction.
  - intros k Hk. apply Sorted_StronglySorted in Hs; [|exact newer_first_trans].
    rewrite <- (firstn_skipn 5 L) in Hs. exact (strongly_sorted_app _ _ _ _ _ Hs Hk Hin).
Qed.

(** X14.  The dashboard counts every job of the user in [total_jobs], but
    no counter takes the CANCELLED ones: the four status counters add up
    to [total_jobs] less the user's cancelled jobs. *)
Lemma dashboard_status_counts (u : string) (db : DB) :
  let st := get_dashboard_stats u db in
  total_jobs st = length (filter (owned_by u) (job_queue db)) /\
  pending_jobs st + processing_jobs st + completed_jobs st + failed_jobs st
    + count_status u JobStatus.CANCELLED db = total_jobs st.
Proof.
  cbn zeta. unfold get_dashboard_stats, job_queue_dashboard; cbn zeta.
  set (t := tally _ _).
  destruct (tally_filter u (job_queue db)
              (mkStats (length (filter (owned_by u) (job_queue db))) 0 0 0 0 None None 0%Q [] []))
    as (H1 & H2 & H3 & H4 & H5 & _).
  fold t in H1, H2, H3, H4, H5. cbn [total_jobs pending_jobs processing_jobs completed_jobs failed_jobs] in *.
  rewrite H1, H2, H3, H4, H5. split; [reflexivity|].
  rewrite (length_owned u (job_queue db)). unfold count_status. fold (count_in u JobStatus.CANCELLED (job_queue db)).
  lia.
Qed.

(** [dict.get(k, 0)] on the counts per type. *)
Fixpoint count_get (d : list (string * nat)) (k : string) : nat :=
  match d with
  | [] => 0
  | (k', n) :: rest => if String.eqb k' k then n else count_get rest k
  end.

Lemma count_get_inc (d : list (string * nat)) (k k' : string) :
  count_get (dict_inc d k) k' = if String.eqb k k' then S (count_get d k') else count_get d k'.
Proof.
  induction d as [|[k0 n] d IH]; simpl.
  - destruct (String.eqb k k'); reflexivity.
  - destruct (String.eqb_spec k0 k) as [->|Hne]; simpl.
    + destruct (String.eqb k k'); reflexivity.
    + rewrite IH. destruct (String.eqb_spec k0 k') as [->|]; [|reflexivity].
      destruct (String.eqb_spec k k'); [congruence | reflexivity].
Qed.

Lemma tally_by_type (rows : list JobQueue) (st : JobDashboardStats) (t : JobType) :
  count_get (jobs_by_type (tally rows st)) (JobType_value t)
  = count_get (jobs_by_type st) (JobType_value t)
    + length (filter (fun j => String.eqb (JobType_value (job_type j)) (JobType_value t)) rows).
Proof.
  revert st; induction rows as [|a rows IH]; intros st; simpl; [lia|].
  rewrite IH. unfold tally_row.
  destruct (String.eqb (JobStatus.value (status a)) "pending"), (String.eqb (JobStatus.value (status a)) "processing"),
    (String.eqb (JobStatus.value (status a)) "completed"), (String.eqb (JobStatus.value (status a)) "failed");
  cbn [jobs_by_type]; rewrite count_get_inc;
  destruct (String.eqb (JobType_value (job_type a)) (JobType_value t)); simpl; lia.
Qed.

(** X15.  [jobs_by_type] of the dashboard gives, for each job type, the
    number of the user's jobs of that type ([0] for a type with none). *)
Lemma dashboard_jobs_by_type (u : string) (db : DB) (t : JobType) :
  count_get (jobs_by_type (get_dashboard_stats u db)) (JobType_value t)
  = length (filter (fun j => owned_by u j && String.eqb (JobType_value (job_type j)) (JobType_value t))
              (job_queue db)).
Proof.
  unfold get_dashboard_stats, job_queue_dashboard; cbn zeta; cbn [jobs_by_type].
  rewrite tally_by_type. cbn [jobs_by_type count_get].
  induction (job_queue db) as [|a rows IH]; simpl; [reflexivity|].
  destruct (owned_by u a); simpl; [|exact IH].
  destruct (String.eqb (JobType_value (job_type a)) (JobType_value t)); simpl; lia.
Qed.

(** ** Handlers that succeed *)

Lemma cv_generation_success_rows (env : Env) (now : nat) (job : JobQueue) (db : DB)
  (out : Dict) (db' : DB) :
  job_processing_steps db = job_steps (id job) CV_GENERATION ->
  _process_cv_generation env now job db = (Success out, db') ->
  forallb (fun n => done_row (find_step (id job) n db')) (STEP_DEFINITIONS CV_GENERATION) = true.
Proof.
  intros Hs H; pose proof (view_fresh _ _ _ Hs) as Hv; clear Hs.
  unfold _process_cv_generation in H; cbv beta zeta in H.
  walk_stages H.
  all: try discriminate H.
  all: injection H; intros; subst.
  all: cbn [forallb STEP_DEFINITIONS]; rewrite !find_step_job_progress.
  all: match goal with Hv : ViewIs _ _ _ |- _ => rewrite !Hv; reflexivity end.
Qed.

Lemma cover_letter_success_rows (env : Env) (now : nat) (job : JobQueue) (db : DB)
  (out : Dict) (db' : DB) :
  job_processing_steps db = job_steps (id job) COVER_LETTER_GENERATION ->
  _process_cover_letter_generation env now job db = (Success out, db') ->
  forallb (fun n => done_row (find_step (id job) n db'))
    (STEP_DEFINITIONS COVER_LETTER_GENERATION) = true.
Proof.
  intros Hs H; pose proof (view_fresh _ _ _ Hs) as Hv; clear Hs.
  unfold _process_cover_letter_generation in H; cbv beta zeta in H.
  walk_stages H.
  all: try discriminate H.
  all: injection H; intros; subst.
  all: cbn [forallb STEP_DEFINITIONS]; rewrite !find_step_job_progress.
  all: match goal with Hv : ViewIs _ _ _ |- _ => rewrite !Hv; reflexivity end.
Qed.

(** X16.  When the CV or the cover letter handler succeeds on the fresh
    step rows of its job, every step of the job's type is COMPLETED or
    SKIPPED. *)
Lemma handler_success_rows (env : Env) (now : nat) (job : JobQueue) (db : DB) (h : Handler)
  (out : Dict) (db' : DB) :
  job_type job = CV_GENERATION \/ job_type job = COVER_LETTER_GENERATION ->
  job_handlers_src env now (job_type job) = Some h ->
  job_processing_steps db = job_steps (id job) (job_type job) ->
  h job db = (Success out, db') ->
  forall n, In n (STEP_DEFINITIONS (job_type job)) ->
  exists s, find_step (id job) n db' = Some s /\
            (Step.status s = StepStatus.COMPLETED \/ Step.status s = StepStatus.SKIPPED).
Proof.
  intros Ht Hh Hs Hr n Hn. apply done_row_true.
  assert (Hall : forallb (fun n => done_row (find_step (id job) n db'))
                   (STEP_DEFINITIONS (job_type job)) = true).
  { destruct Ht as [Ht|Ht]; rewrite Ht in Hh, Hs |- *; injection Hh as <-.
    - exact (cv_generation_success_rows env now job db out db' Hs Hr).
    - exact (cover_letter_success_rows env now job db out db' Hs Hr). }
  rewrite forallb_forall in Hall. exact (Hall n Hn).
Qed.

Definition cv_job : JobQueue := sample_job "job-5" CV_GENERATION 5 3 0 JobStatus.PENDING 5.

Lemma handler_success_rows_witness :
  exists s, find_step "job-5" "job_analysis"
              (snd (_process_cv_generation (fun _ => Done) 7 cv_job (db_of [cv_job]))) = Some s /\
            (Step.status s = StepStatus.COMPLETED \/ Step.status s = StepStatus.SKIPPED).
Proof.
  apply (handler_success_rows (fun _ => Done) 7 cv_job (db_of [cv_job])
           (_process_cv_generation (fun _ => Done) 7) [("template_used", "modern_one_page")]);
    [left; reflexivity | reflexivity | reflexivity | | simpl; tauto].
  vm_compute. reflexivity.
Defined.

(** X18.  [_fail_job] raises when the job has no row; otherwise it leaves
    every step row and every row of another job as it was. *)
Lemma fail_job_frame (jid msg : string) (now : nat) (db : DB) :
  (find_job jid (job_queue db) = None -> _fail_job jid msg now db = None) /\
  (forall db', _fail_job jid msg now db = Some db' ->
     job_processing_steps db' = job_processing_steps db /\
     forall k, In k (job_queue db) -> id k <> jid -> In k (job_queue db')).
Proof.
  unfold _fail_job. split; [intros H; rewrite H; reflexivity|].
  intros db' H. destruct (find_job jid (job_queue db)) as [r|]; [|discriminate H].
  injection H as <-. cbn [set_job_queue job_queue job_processing_steps]. split; [reflexivity|].
  intros k Hk Hne. apply In_update_where_untouched; [exact Hk | apply has_id_false, Hne].
Qed.

(** ** The progress WebSocket ([job_progress_websocket])

    A message sent on the socket: a [JobProgressUpdate], the error of the
    ownership check, or the error of a failed poll (here the one
    [JobProgressUpdate] raises on a [progress_percentage] above 100).  The
    loop reads the store once per poll; [polls] holds the store as each
    poll finds it.  The result is the messages sent and whether the loop
    ended (a client disconnecting is not modelled). *)
Inductive WsMsg :=
| WsProgress (job_id : string) (status0 : JobStatus.t) (progress : nat)
    (current_step0 : option string) (updated_at0 : nat)
| WsDenied
| WsUpdateError.

Definition final_status (s : JobStatus.t) : bool :=
  existsb (String.eqb (JobStatus.value s)) ["completed"; "failed"; "cancelled"].

Fixpoint ws_loop (job_id : string) (polls : list DB) : list WsMsg * bool :=
  match polls with
  | [] => ([], false)
  | db :: rest =>
      match find_job job_id (job_queue db) with
      | None => ws_loop job_id rest
      | Some j =>
          if Nat.leb (progress_percentage j) 100 then
            let m := WsProgress job_id (status j) (progress_percentage j) (current_step j)
                       (updated_at j) in
            if final_status (status j) then ([m], true)
            else let (ms, closed) := ws_loop job_id rest in (m :: ms, closed)
          else ([WsUpdateError], true)
      end
  end.

Definition job_progress_websocket (job_id current_user : string) (db : DB) (polls : list DB)
  : list WsMsg * bool :=
  match find_owned job_id current_user (job_queue db) with
  | None => ([WsDenied], true)
  | Some _ => ws_loop job_id polls
  end.

(** A message after which the loop sends nothing more. *)
Definition ws_final (m : WsMsg) : bool :=
  match m with
  | WsProgress _ s _ _ _ => final_status s
  | WsDenied | WsUpdateError => true
  end.

Definition ws_about (job_id : string) (m : WsMsg) : Prop :=
  match m with
  | WsProgress j _ p _ _ => j = job_id /\ p <= 100
  | _ => True
  end.

Lemma ws_loop_shape (jid : string) (polls : list DB) :
  let (ms, closed) := ws_loop jid polls in
  (closed = false -> Forall (fun m => ws_final m = false) ms) /\
  (closed = true -> exists pre m, ms = (pre ++ [m])%list /\ ws_final m = true /\
                                  Forall (fun m => ws_final m = false) pre) /\
  Forall (ws_about jid) ms.
Proof.
  induction polls as [|d rest IH]; simpl; [repeat split; [constructor|discriminate|constructor]|].
  destruct (find_job jid (job_queue d)) as [j|]; [|exact IH].
  destruct (Nat.leb_spec (progress_percentage j) 100) as [Hp|Hp].
  - destruct (final_status (status j)) eqn:Ef.
    + repeat split; [discriminate| |].
      * intros _. exists [], (WsProgress jid (status j) (progress_percentage j) (current_step j)
                                 (updated_at j)). simpl; rewrite Ef; auto.
      * constructor; [simpl; auto | constructor].
    + destruct (ws_loop jid rest) as [ms closed]. destruct IH as (H1 & H2 & H3).
      repeat split.
      * intros Hc; constructor; [simpl; exact Ef | exact (H1 Hc)].
      * intros Hc. destruct (H2 Hc) as (pre & m & -> & Hm & Hpre).
        exists (WsProgress jid (status j) (progress_percentage j) (current_step j) (updated_at j) :: pre), m.
        split; [reflexivity | split; [exact Hm | constructor; [simpl; exact Ef | exact Hpre]]].
      * constructor; [simpl; auto | exact H3].
  - repeat split; [discriminate| |].
    + intros _. exists [], WsUpdateError. simpl; auto.
    + constructor; [exact I | constructor].
Qed.

(** X19.  The messages of the progress socket are all about its job, with
    a progress of at most 100; while it stays open none of them is final;
    when it closes, exactly the last one is final (a progress update in
    status completed, failed or cancelled, or an error). *)
Lemma websocket_messages_shape (jid u : string) (db : DB) (polls : list DB) :
  let (ms, closed) := job_progress_websocket jid u db polls in
  (closed = false -> Forall (fun m => ws_final m = false) ms) /\
  (closed = true -> exists pre m, ms = (pre ++ [m])%list /\ ws_final m = true /\
                                  Forall (fun m => ws_final m = false) pre) /\
  Forall (ws_about jid) ms.
Proof.
  unfold job_progress_websocket. destruct (find_owned jid u (job_queue db)).
  - apply ws_loop_shape.
  - repeat split; [discriminate| |].
    + intros _. exists [], WsDenied. simpl; auto.
    + constructor; [exact I | constructor].
Qed.

(** X20.  Once the job's row is gone (deleted after the socket opened),
    the socket sends nothing and never closes, however many polls run. *)
Lemma websocket_deleted_job_silent (jid u : string) (db : DB) (polls : list DB) (r : JobQueue) :
  find_owned jid u (job_queue db) = Some r ->
  (forall d, In d polls -> find_job jid (job_queue d) = None) ->
  job_progress_websocket jid u db polls = ([], false).
Proof.
  intros Ho Hn. unfold job_progress_websocket. rewrite Ho.
  induction polls as [|d rest IH]; simpl; [reflexivity|].
  rewrite (Hn d (or_introl eq_refl)). apply IH. intros d' Hd'. apply Hn; right; exact Hd'.
Qed.

Lemma websocket_deleted_job_silent_witness :
  job_progress_websocket "job-2" owner list_db
    [snd (delete_job "job-2" owner list_db); snd (delete_job "job-2" owner list_db)] = ([], false).
Proof.
  apply (websocket_deleted_job_silent "job-2" owner list_db _
           (sample_job "job-2" COVER_LETTER_GENERATION 2 3 0 JobStatus.PENDING 2)); [reflexivity|].
  intros d Hd. simpl in Hd. destruct Hd as [<-|[<-|[]]]; reflexivity.
Defined.

(** X21.  The progress socket of an owned job is closed once a poll finds
    the job in status completed, failed or cancelled, or with a progress
    above 100. *)
Lemma websocket_closes (jid u : string) (db : DB) (polls : list DB) (r : JobQueue) (d : DB)
  (j : JobQueue) :
  find_owned jid u (job_queue db) = Some r ->
  In d polls -> find_job jid (job_queue d) = Some j ->
  final_status (status j) = true \/ 100 < progress_percentage j ->
  snd (job_progress_websocket jid u db polls) = true.
Proof.
  intros Ho Hd Hj Hc. unfold job_progress_websocket. rewrite Ho. clear Ho.
  induction polls as [|d0 rest IH]; [contradiction|].
  cbn [ws_loop]. destruct Hd as [<-|Hd].
  - rewrite Hj. destruct (Nat.leb_spec (progress_percentage j) 100); [|reflexivity].
    destruct Hc as [Hc|Hc]; [rewrite Hc; reflexivity | lia].
  - destruct (find_job jid (job_queue d0)) as [j'|]; [|exact (IH Hd)].
    destruct (Nat.leb (progress_percentage j') 100); [|reflexivity].
    destruct (final_status (status j')); [reflexivity|].
    specialize (IH Hd). destruct (ws_loop jid rest). exact IH.
Qed.

Lemma websocket_closes_witness :
  snd (job_progress_websocket "job-2" owner list_db
         [list_db; snd (cancel_job "job-2" owner (mkCancel None) 10 list_db); list_db]) = true.
Proof.
  apply (websocket_closes "job-2" owner list_db _
           (sample_job "job-2" COVER_LETTER_GENERATION 2 3 0 JobStatus.PENDING 2)
           (snd (cancel_job "job-2" owner (mkCancel None) 10 list_db))
           (cancel_update (mkCancel None) 10 (sample_job "job-2" COVER_LETTER_GENERATION 2 3 0 JobStatus.PENDING 2)));
    [reflexivity | simpl; tauto | reflexivity | left; reflexivity].
Defined.
